(** * Screen Tracker / Book Tracker: a shallow embedding of the collection,
    codec and sync code of [src/app.js] (screen variant) and
    [src/unnamed/part_001] (book variant).

    JavaScript strings are modelled as [string] (sequences of 8-bit code
    units); a JS value that may be [null] or [undefined] is an [option].
    JS truthiness of such a value is [truthy]: [Some s] with [s <> ""]. *)

From Stdlib Require Import Bool Arith List Lia ZArith Ascii String.
From Stdlib Require Import Permutation Sorted.
From Stdlib Require Import Numbers.DecimalString NArith Numbers.DecimalN.
Import ListNotations.
Open Scope string_scope.
Open Scope list_scope.

(* ================================================================== *)
(** ** String helpers with JavaScript semantics *)

Definition TAB : ascii := "009"%char.
Definition LF : ascii := "010"%char.
Definition CR : ascii := "013"%char.
Definition DQUOTE : ascii := "034"%char.
Definition SQUOTE : ascii := "039"%char.
Definition COMMA : ascii := ","%char.
Definition SPACE : ascii := " "%char.

Definition str1 (a : ascii) : string := String a EmptyString.

(** [String.prototype.split] with a one-character separator. *)
Fixpoint split_on (c : ascii) (s : string) : list string :=
  match s with
  | EmptyString => [EmptyString]
  | String a s' =>
      let r := split_on c s' in
      if Ascii.eqb a c then EmptyString :: r
      else match r with
           | x :: rest => String a x :: rest
           | [] => [str1 a]
           end
  end.

(** [Array.prototype.join]. *)
Definition join (sep : string) (l : list string) : string := String.concat sep l.

(** Characters removed by [String.prototype.trim] among 8-bit code units:
    TAB, LF, VT, FF, CR, SPACE and NO-BREAK SPACE. *)
Definition is_ws (a : ascii) : bool :=
  let n := nat_of_ascii a in
  Nat.eqb n 9 || Nat.eqb n 10 || Nat.eqb n 11 || Nat.eqb n 12 || Nat.eqb n 13
  || Nat.eqb n 32 || Nat.eqb n 160.

Fixpoint trim_start (s : string) : string :=
  match s with
  | EmptyString => EmptyString
  | String a s' => if is_ws a then trim_start s' else s
  end.

Fixpoint trim_end (s : string) : string :=
  match s with
  | EmptyString => EmptyString
  | String a s' =>
      let t := trim_end s' in
      if is_ws a && String.eqb t EmptyString then EmptyString else String a t
  end.

(** [String.prototype.trim]. *)
Definition trim (s : string) : string := trim_end (trim_start s).

(** [s.replace(/c/g, d)] for a one-character pattern [c]. *)
Fixpoint replace_char (c : ascii) (d : string) (s : string) : string :=
  match s with
  | EmptyString => EmptyString
  | String a s' =>
      if Ascii.eqb a c then d ++ replace_char c d s' else String a (replace_char c d s')
  end.

Fixpoint contains_char (c : ascii) (s : string) : bool :=
  match s with
  | EmptyString => false
  | String a s' => Ascii.eqb a c || contains_char c s'
  end.

Definition nonempty (s : string) : bool := negb (String.eqb s EmptyString).

(** JS truthiness of a nullable string. *)
Definition truthy (o : option string) : bool :=
  match o with Some s => nonempty s | None => false end.

(** [x || ''] for a nullable string. *)
Definition or_empty (o : option string) : string :=
  match o with Some s => s | None => EmptyString end.

(** [x || null] for a string. *)
Definition or_null (s : string) : option string :=
  if nonempty s then Some s else None.

(** [x === v] for a nullable string [x] and a string literal [v]. *)
Definition is_str (o : option string) (v : string) : bool :=
  match o with Some s => String.eqb s v | None => false end.

(** [s1 > s2] on JS strings: code-unit lexicographic order. *)
Definition str_gt (s1 s2 : string) : bool := String.ltb s2 s1.

Definition string_of_nat (n : nat) : string := NilEmpty.string_of_uint (Nat.to_uint n).

(* ================================================================== *)
(** ** Data model *)

(** A tracked screen (movie or TV show) of [src/app.js].  [tmdbId] holds
    the decimal text of the TMDB number; [cachedPoster] is the local-only
    image copy.  Screens never carry a [startedAt] field in this program. *)
Record screen := mkScreen {
  id : string;
  addedAt : option string;
  finishedAt : option string;
  tmdbId : option string;
  lastWatchedEpisode : option string;
  tags : option (list string);
  type : option string;
  title : option string;
  year : option string;
  posterUrl : option string;
  overview : option string;
  cachedPoster : option string
}.

(** A tracked book of [src/unnamed/part_001]; [cachedCover] is local-only. *)
Record book := mkBook {
  b_id : string;
  isbn : option string;
  b_title : option string;
  author : option string;
  b_year : option string;
  description : option string;
  coverUrl : option string;
  b_tags : option (list string);
  b_addedAt : option string;
  startedAt : option string;
  b_finishedAt : option string;
  cachedCover : option string
}.

(* ================================================================== *)
(** ** Status derivation *)

Inductive screen_status := to_watch | watching | watched.
Inductive book_status := to_read | reading | read.

(** [getScreenListStatus] ([src/app.js]). *)
Definition getScreenListStatus (s : screen) : option screen_status :=
  if truthy (finishedAt s) then Some watched
  else if is_str (type s) "tv" && truthy (lastWatchedEpisode s)
  then Some watching
  else if truthy (addedAt s) then Some to_watch
  else None.

(** [getBookListStatus] ([src/unnamed/part_001]). *)
Definition getBookListStatus (b : book) : option book_status :=
  if truthy (b_finishedAt b) then Some read
  else if truthy (startedAt b) then Some reading
  else if truthy (b_addedAt b) then Some to_read
  else None.

(* ================================================================== *)
(** ** Timestamp-setting mutations *)

(** [setListTimestamps] of [src/app.js]; [now] is [new Date().toISOString()]. *)
Definition setListTimestamps (now : string) (s : screen) (listStatus : string) : screen :=
  if String.eqb listStatus "to_watch" then
    {| id := id s; addedAt := Some now; finishedAt := None; tmdbId := tmdbId s;
       lastWatchedEpisode := None; tags := tags s; type := type s;
       title := title s; year := year s; posterUrl := posterUrl s;
       overview := overview s; cachedPoster := cachedPoster s |}
  else if String.eqb listStatus "watching" then
    {| id := id s;
       addedAt := if negb (truthy (addedAt s)) then Some now else addedAt s;
       finishedAt := None; tmdbId := tmdbId s;
       lastWatchedEpisode := lastWatchedEpisode s; tags := tags s; type := type s;
       title := title s; year := year s; posterUrl := posterUrl s;
       overview := overview s; cachedPoster := cachedPoster s |}
  else if String.eqb listStatus "watched" then
    let fin := Some now in
    {| id := id s;
       addedAt := if negb (truthy (addedAt s)) then fin else addedAt s;
       finishedAt := fin; tmdbId := tmdbId s;
       lastWatchedEpisode := lastWatchedEpisode s; tags := tags s; type := type s;
       title := title s; year := year s; posterUrl := posterUrl s;
       overview := overview s; cachedPoster := cachedPoster s |}
  else s.

(** [a > b] between two timestamp fields that the code compares; it is
    only evaluated when [a] is truthy and [b] is a string. *)
Definition ts_gt (a b : option string) : bool :=
  match a, b with Some x, Some y => str_gt x y | _, _ => false end.

(** The three [if (!x || x > y) x = y] integrity repairs of the book variant. *)
Definition repair (earlier later : option string) : option string :=
  if negb (truthy earlier) || ts_gt earlier later then later else earlier.

(** [setListTimestamps] of [src/unnamed/part_001]. *)
Definition setBookListTimestamps (now : string) (b : book) (listStatus : string) : book :=
  let with_ts a st f :=
    {| b_id := b_id b; isbn := isbn b; b_title := b_title b; author := author b;
       b_year := b_year b; description := description b; coverUrl := coverUrl b;
       b_tags := b_tags b; b_addedAt := a; startedAt := st; b_finishedAt := f;
       cachedCover := cachedCover b |} in
  if String.eqb listStatus "to_read" then with_ts (Some now) None None
  else if String.eqb listStatus "reading" then
    let st := Some now in
    with_ts (repair (b_addedAt b) st) st None
  else if String.eqb listStatus "read" then
    let f := Some now in
    let st := repair (startedAt b) f in
    with_ts (repair (b_addedAt b) st) st f
  else b.

(** The ordering [a <= b] of two timestamps, required whenever both are set. *)
Definition ts_le (a b : option string) : bool :=
  match a, b with
  | Some x, Some y => if nonempty x && nonempty y then String.leb x y else true
  | _, _ => true
  end.

(* ================================================================== *)
(** ** Screen codec ([screensToTSV], [tsvToScreens] of [src/app.js]) *)

Definition screen_header : string :=
  join (str1 TAB) ["addedAt"; "finishedAt"; "tmdbID"; "lastWatchedEpisode"; "tags";
                   "type"; "title"; "year"; "posterURL"; "description"].

(** The ten fields written for one screen, in column order. *)
Definition screen_fields (s : screen) : list string :=
  let tsvType := if is_str (type s) "tv" then Some "show" else type s in
  [ or_empty (addedAt s); or_empty (finishedAt s); or_empty (tmdbId s);
    or_empty (lastWatchedEpisode s);
    join "," (match tags s with Some l => l | None => [] end);
    or_empty tsvType; or_empty (title s); or_empty (year s);
    or_empty (posterUrl s); or_empty (overview s) ].

Definition screen_row (s : screen) : string := join (str1 TAB) (screen_fields s).

Definition screensToTSV (screens : list screen) : string :=
  screen_header ++ str1 LF ++ join (str1 LF) (map screen_row screens).

(** One data line [lines[i]] of [tsvToScreens]; [now] is the decimal text
    of [Date.now()], used for the id of rows without a TMDB id. *)
Definition parse_screen_line (now : string) (i : nat) (raw : string) : option screen :=
  let line := trim raw in
  if negb (nonempty line) then None
  else
    let parts := split_on TAB line in
    if Nat.ltb (List.length parts) 10 then None
    else
      let p k := nth k parts EmptyString in
      let internalType := if String.eqb (p 5) "show" then "tv" else p 5 in
      let tmdb := p 2 in
      Some {| id := if nonempty tmdb then internalType ++ "_" ++ tmdb
                    else "manual_" ++ now ++ "_" ++ string_of_nat i;
              addedAt := Some (p 0); finishedAt := Some (p 1); tmdbId := Some tmdb;
              lastWatchedEpisode := or_null (p 3);
              tags := Some (if nonempty (p 4) then filter nonempty (split_on COMMA (p 4))
                            else []);
              type := Some internalType; title := Some (p 6); year := Some (p 7);
              posterUrl := Some (p 8); overview := Some (p 9); cachedPoster := None |}.

Fixpoint parse_screen_lines (now : string) (i : nat) (lines : list string) : list screen :=
  match lines with
  | [] => []
  | l :: rest =>
      match parse_screen_line now i l with
      | Some s => s :: parse_screen_lines now (S i) rest
      | None => parse_screen_lines now (S i) rest
      end
  end.

Definition tsvToScreens (now : string) (tsv : string) : list screen :=
  let lines := split_on LF tsv in
  if Nat.ltb (List.length lines) 2 then []
  else parse_screen_lines now 1 (tl lines).

(* ================================================================== *)
(** ** Merge ([getLatestTimestamp], [mergeScreens] of [src/app.js]) *)

(** A JS [Date]: a time value in milliseconds, or an Invalid Date (NaN). *)
Inductive jsdate := Invalid | At (t : Z).

(** [a > b] on dates compares their time values; NaN compares false. *)
Definition date_gt (a b : jsdate) : bool :=
  match a, b with At x, At y => Z.gtb x y | _, _ => false end.

(** [Math.max] over a non-empty list of time values. *)
Definition js_max (d : jsdate) (l : list jsdate) : jsdate :=
  fold_left (fun acc e => match acc, e with
                          | At x, At y => At (Z.max x y)
                          | _, _ => Invalid
                          end) l d.

(** A JS [Map] from ids to screens: an association list in insertion order;
    [set] on a present key replaces the value in place. *)
Definition smap := list (string * screen).

Fixpoint map_set (k : string) (v : screen) (m : smap) : smap :=
  match m with
  | [] => [(k, v)]
  | (k', v') :: m' => if String.eqb k k' then (k, v) :: m' else (k', v') :: map_set k v m'
  end.

Fixpoint map_get (k : string) (m : smap) : option screen :=
  match m with
  | [] => None
  | (k', v') :: m' => if String.eqb k k' then Some v' else map_get k m'
  end.

Section Merge.

(** [new Date(t).getTime()]: parsing a timestamp string, [None] for NaN. *)
Variable parse_date : string -> option Z.

Definition to_date (t : string) : jsdate :=
  match parse_date t with Some ms => At ms | None => Invalid end.

(** [getLatestTimestamp]: [None] is [null]. The [startedAt] field read by the
    source is always undefined on screens and is dropped by [.filter(t => t)]. *)
Definition getLatestTimestamp (s : screen) : option jsdate :=
  let ts := flat_map (fun o => if truthy o then [or_empty o] else [])
                     [addedAt s; finishedAt s] in
  match map to_date ts with
  | [] => None
  | d :: ds => Some (js_max d ds)
  end.

(** The remote copy replaces the local one:
    [remoteLatest && (!localLatest || remoteLatest > localLatest)]. *)
Definition remote_wins (localScreen remoteScreen : screen) : bool :=
  match getLatestTimestamp remoteScreen with
  | None => false
  | Some rl =>
      match getLatestTimestamp localScreen with
      | None => true
      | Some ll => date_gt rl ll
      end
  end.

Definition merge_remote (m : smap) (remoteScreen : screen) : smap :=
  match map_get (id remoteScreen) m with
  | None => map_set (id remoteScreen) remoteScreen m
  | Some localScreen =>
      if remote_wins localScreen remoteScreen
      then map_set (id remoteScreen) remoteScreen m else m
  end.

Definition mergeScreens (localScreens remoteScreens : list screen) : list screen :=
  let m0 := fold_left (fun m s => map_set (id s) s m) localScreens [] in
  map snd (fold_left merge_remote remoteScreens m0).

End Merge.

(** A concrete timestamp reader used to run the merge on sample inputs: it
    reads the decimal digits of an ISO-8601 timestamp as one number, which
    orders timestamps of the fixed [toISOString] format as [Date] does. *)
Fixpoint digits_value (s : string) (acc : Z) : Z :=
  match s with
  | EmptyString => acc
  | String a s' =>
      let n := nat_of_ascii a in
      if (48 <=? n) && (n <=? 57) then digits_value s' (acc * 10 + Z.of_nat (n - 48))
      else digits_value s' acc
  end%nat.

Definition iso_digits (s : string) : option Z := Some (digits_value s 0).

(* ================================================================== *)
(** ** Book codec ([booksToTSV], [tsvToBooks] of [src/unnamed/part_001]) *)

Definition book_columns : list string :=
  ["addedAt"; "startedAt"; "finishedAt"; "isbn"; "tags"; "title"; "author"; "year";
   "coverUrl"; "description"].

(** [escapeField] inside [booksToTSV]. *)
Definition escapeField (o : option string) : string :=
  if negb (truthy o) then EmptyString
  else replace_char DQUOTE (str1 SQUOTE)
         (replace_char CR EmptyString
            (replace_char LF (str1 SPACE) (replace_char TAB (str1 SPACE) (or_empty o)))).

(** The ten fields written for one book, in column order. *)
Definition book_fields (b : book) : list string :=
  let tgs := match b_tags b with
             | Some ((_ :: _) as l) => join "," l
             | _ => EmptyString
             end in
  [ or_empty (b_addedAt b); or_empty (startedAt b); or_empty (b_finishedAt b);
    or_empty (isbn b); tgs; escapeField (b_title b); escapeField (author b);
    or_empty (b_year b); or_empty (coverUrl b); escapeField (description b) ].

(** The field lists of the emitted data rows: only books with an ISBN. *)
Definition book_rows (books : list book) : list (list string) :=
  map book_fields (filter (fun b => truthy (isbn b)) books).

Definition booksToTSV (books : list book) : string :=
  join (str1 LF) (map (join (str1 TAB)) (book_columns :: book_rows books)).

(** [columnMap[name]]: later header columns with the same trimmed name
    overwrite earlier ones. *)
Fixpoint col_index_from (k : nat) (header : list string) (name : string) : option nat :=
  match header with
  | [] => None
  | c :: rest =>
      match col_index_from (S k) rest name with
      | Some j => Some j
      | None => if String.eqb (trim c) name then Some k else None
      end
  end.

Definition columnMap (header : list string) (name : string) : option nat :=
  col_index_from 0 header name.

(** [!expectedColumnOrder.every((col, idx) => actualOrder[idx] === col)]. *)
Definition isWrongOrder (header : list string) : bool :=
  let actualOrder := map trim header in
  negb (forallb (fun p => match nth_error actualOrder (fst p) with
                          | Some c => String.eqb c (snd p)
                          | None => false
                          end)
                (combine (seq 0 (List.length book_columns)) book_columns)).

Definition includes (l : list string) (x : string) : bool := existsb (String.eqb x) l.

Definition needsMigration (header : list string) : bool :=
  negb (includes header "startedAt") || negb (includes header "finishedAt").

(** [sanitizeField]: the value and whether it changed. *)
Definition sanitizeField (str : string) : string * bool :=
  if negb (nonempty str) then (EmptyString, false)
  else let s' := replace_char DQUOTE (str1 SQUOTE) str in
       (s', negb (String.eqb s' str)).

(** The values read from one data row, after migration and repairs. *)
Record row_vals := mkRow {
  rv_isbn : string; rv_title : string; rv_author : string; rv_year : string;
  rv_description : string; rv_coverUrl : string; rv_tags : list string;
  rv_added : string; rv_started : string; rv_finished : string
}.

Definition is_list_tag (t : string) : bool := includes ["to_read"; "reading"; "read"] t.

(** [if (!x || x > y) x = y] on the string values of a row. *)
Definition repair_str (x y : string) : string :=
  if negb (nonempty x) || str_gt x y then y else x.

(** [getValue(colName)] of the loop of [tsvToBooks] on the cells [cols] of a
    line: [(cols[idx] || '').trim()], or [''] for a column not in the header. *)
Definition getValue (header cols : list string) (colName : string) : string :=
  match columnMap header colName with
  | Some idx => trim (nth idx cols EmptyString)
  | None => EmptyString
  end.

(** The body of the loop of [tsvToBooks] for one line: [None] when the row is
    skipped for lacking an ISBN; otherwise its values and whether
    sanitization changed one of its fields. *)
Definition parse_book_row (header : list string) (line : string) : option (row_vals * bool) :=
  let cols := split_on TAB line in
  let getValue := getValue header cols in
  let i := getValue "isbn" in
  if negb (nonempty i) then None
  else
    let (title, ch1) := sanitizeField (getValue "title") in
    let (author, ch2) := sanitizeField (getValue "author") in
    let year := getValue "year" in
    let (description, ch3) := sanitizeField (getValue "description") in
    let cover := getValue "coverUrl" in
    let tagsStr := getValue "tags" in
    let added := getValue "addedAt" in
    let started := getValue "startedAt" in
    let finished := getValue "finishedAt" in
    let tgs := if nonempty tagsStr
               then filter (fun t => nonempty (trim t)) (split_on COMMA tagsStr) else [] in
    let '(started, finished, tgs) :=
      if needsMigration header then
        let listTag := find is_list_tag tgs in
        let tgs' := filter (fun t => negb (is_list_tag t)) tgs in
        match listTag with
        | Some "to_read" => (EmptyString, EmptyString, tgs')
        | Some "reading" => (added, EmptyString, tgs')
        | Some "read" => (added, added, tgs')
        | _ => (started, finished, tgs')
        end
      else (started, finished, tgs) in
    let added := if nonempty started then repair_str added started else added in
    let '(added, started) :=
      if nonempty finished then
        let started := repair_str started finished in
        (repair_str added started, started)
      else (added, started) in
    Some (mkRow i title author year description cover tgs added started finished,
          ch1 || ch2 || ch3).

(** [volumeInfo] of a Google Books answer; [v_bestCover] stands for
    [getBestCoverUrl(volumeInfo.imageLinks)]. *)
Record volume := mkVolume {
  v_title : option string; v_authors : option (list string);
  v_publishedDate : option string; v_description : option string;
  v_bestCover : option string
}.

(** Outcome of the backfill request for one ISBN: the first item, no items,
    or a rejected promise (network error, bad JSON, missing [volumeInfo]). *)
Inductive api_result :=
  | ApiFound (item_id : option string) (vi : volume)
  | ApiNoItems
  | ApiFailed.

(** [a || b] on nullable strings. *)
Definition js_or (a b : option string) : option string := if truthy a then a else b.

(** The book built from TSV values alone (direct path and both fallbacks). *)
Definition book_of_row (r : row_vals) : book :=
  {| b_id := rv_isbn r; isbn := Some (rv_isbn r);
     b_title := js_or (Some (rv_title r)) (Some "Unknown Title");
     author := js_or (Some (rv_author r)) (Some "Unknown Author");
     b_year := js_or (Some (rv_year r)) (Some "N/A");
     description := or_null (rv_description r); coverUrl := or_null (rv_coverUrl r);
     b_tags := Some (rv_tags r);
     b_addedAt := or_null (rv_added r); startedAt := or_null (rv_started r);
     b_finishedAt := or_null (rv_finished r); cachedCover := None |}.

(** The book built when the API returned an item: TSV values take precedence. *)
Definition book_of_api (r : row_vals) (item_id : option string) (vi : volume) : book :=
  {| b_id := or_empty (js_or item_id (Some (rv_isbn r))); isbn := Some (rv_isbn r);
     b_title := js_or (Some (rv_title r)) (js_or (v_title vi) (Some "Unknown Title"));
     author := js_or (Some (rv_author r))
                 (js_or (option_map (join ", ") (v_authors vi)) (Some "Unknown Author"));
     b_year := js_or (Some (rv_year r))
                 (js_or (option_map (substring 0 4) (v_publishedDate vi)) (Some "N/A"));
     description := js_or (or_null (rv_description r)) (js_or (v_description vi) None);
     coverUrl := js_or (or_null (rv_coverUrl r)) (js_or (v_bestCover vi) None);
     b_tags := Some (rv_tags r);
     b_addedAt := or_null (rv_added r); startedAt := or_null (rv_started r);
     b_finishedAt := or_null (rv_finished r); cachedCover := None |}.

Definition needsAPIFetch (r : row_vals) : bool :=
  negb (nonempty (rv_title r)) || negb (nonempty (rv_author r)) || negb (nonempty (rv_year r))
  || negb (nonempty (rv_description r)) || negb (nonempty (rv_coverUrl r)).

(** The mutable locals of the loop of [tsvToBooks]. *)
Record loop_state := mkLoop {
  ls_books : list book;            (* books pushed synchronously *)
  ls_fetch : list row_vals;        (* rows waiting for the backfill request *)
  ls_needsSanitization : bool
}.

Fixpoint books_loop (header : list string) (lines : list string) (st : loop_state)
  : loop_state :=
  match lines with
  | [] => st
  | line :: rest =>
      match parse_book_row header line with
      | None => books_loop header rest st
      | Some (r, ch) =>
          let san := ls_needsSanitization st || ch in
          if needsAPIFetch r
          then books_loop header rest (mkLoop (ls_books st) (ls_fetch st ++ [r]) san)
          else books_loop header rest (mkLoop (ls_books st ++ [book_of_row r]) (ls_fetch st) san)
      end
  end.

Section BookDecode.

(** The Google Books lookup by ISBN. *)
Variable google : string -> api_result.

Definition resolve_fetch (r : row_vals) : book :=
  match google (rv_isbn r) with
  | ApiFound iid vi => book_of_api r iid vi
  | _ => book_of_row r
  end.

(** [tsvToBooks]: the books and the [needsReorder] flag.  Backfilled books
    are pushed when their requests settle, after the synchronous ones; they
    are listed here in request order. *)
Definition tsvToBooks (tsv : string) : list book * bool :=
  let lines := split_on LF (trim tsv) in
  let header := split_on TAB (hd EmptyString lines) in
  let st := books_loop header (tl lines) (mkLoop [] [] false) in
  (ls_books st ++ map resolve_fetch (ls_fetch st),
   isWrongOrder header || needsMigration header || ls_needsSanitization st).

End BookDecode.

(* ================================================================== *)
(** ** Sync engines *)

(** The remote gist: absent (a fetch answers 404), or present with the
    content of the tracker's TSV file when that file exists. *)
Inductive gist := NoGist | Gist (file : option string).

Module ScreenSync.

(** The parts of [state] (and of [localStorage]) of [src/app.js] that the
    sync touches, together with the remote gist. *)
Record app := mkApp {
  screens : list screen;
  apiToken : string;
  gistId : string;
  isSyncing : bool;
  lastSyncTime : option Z;
  cache : list screen;          (* localStorage 'screenTracker_screens' *)
  remote : gist
}.

Section Sync.
Variable parse_date : string -> option Z.
Variable now_ms : string.       (* Date.now() as text, for tsvToScreens *)
Variable now_t : Z.             (* Date.now() at the end of the sync *)
Variable new_id : string.       (* id of a gist created by POST *)

(** Step 1 of [syncWithGitHub]: the gist id after the pull and the pulled screens. *)
Definition pull (st : app) : string * list screen :=
  if nonempty (gistId st) then
    match remote st with
    | Gist f => (gistId st, if truthy f then tsvToScreens now_ms (or_empty f) else [])
    | NoGist => (EmptyString, [])
    end
  else (gistId st, []).

(** [syncWithGitHub(showFeedback)]: pull, merge, store, push. *)
Definition syncWithGitHub (st : app) : app :=
  if negb (nonempty (apiToken st)) then st
  else if isSyncing st then st
  else
    let (gid, remoteScreens) := pull st in
    let merged := mergeScreens parse_date (screens st) remoteScreens in
    let tsvData := screensToTSV merged in
    if nonempty gid then
      match remote st with
      | Gist _ => mkApp merged (apiToken st) gid false (Some now_t) merged (Gist (Some tsvData))
      | NoGist => mkApp merged (apiToken st) gid false (lastSyncTime st) merged NoGist
      end
    else mkApp merged (apiToken st) new_id false (Some now_t) merged (Gist (Some tsvData)).

(** [saveToLocalStorage]: write the cache, then [syncWithGitHub(false)]. *)
Definition saveToLocalStorage (st : app) : app :=
  syncWithGitHub (mkApp (screens st) (apiToken st) (gistId st) (isSyncing st)
                        (lastSyncTime st) (screens st) (remote st)).

Fixpoint remove_first (sid : string) (l : list screen) : option (list screen) :=
  match l with
  | [] => None
  | s :: rest =>
      if String.eqb (id s) sid then Some rest
      else option_map (cons s) (remove_first sid rest)
  end.

(** The delete button handler: [splice] the screen, then save. *)
Definition deleteScreen (sid : string) (st : app) : app :=
  match remove_first sid (screens st) with
  | None => st
  | Some rest =>
      saveToLocalStorage (mkApp rest (apiToken st) (gistId st) (isSyncing st)
                                (lastSyncTime st) (cache st) (remote st))
  end.

End Sync.
End ScreenSync.

Module BookSync.

(** The parts of [state] and [localStorage] of [src/unnamed/part_001] that
    the sync touches, together with the remote gist. *)
Record app := mkApp {
  books : list book;
  apiToken : string;
  gistId : string;
  isSyncing : bool;
  lastSyncTime : option Z;
  cache : list book;            (* localStorage 'bookTrackerData' *)
  remote : gist
}.

Section Sync.
Variable google : string -> api_result.
Variable now_t : Z.
Variable new_id : string.

Definition set_remote (st : app) (g : gist) : app :=
  mkApp (books st) (apiToken st) (gistId st) (isSyncing st) (lastSyncTime st) (cache st) g.

Definition set_syncing (st : app) (b : bool) : app :=
  mkApp (books st) (apiToken st) (gistId st) b (lastSyncTime st) (cache st) (remote st).

(** [updateGist]: PATCH the TSV of the current books; fails on a missing gist. *)
Definition updateGist (st : app) : option app :=
  match remote st with
  | Gist _ => Some (set_remote st (Gist (Some (booksToTSV (books st)))))
  | NoGist => None
  end.

(** [pushToGitHub]: push-only, skipped while a sync is running. *)
Definition pushToGitHub (st : app) : app :=
  if negb (nonempty (trim (apiToken st))) || negb (nonempty (trim (gistId st))) then st
  else if isSyncing st then st
  else match updateGist (set_syncing st true) with
       | Some st' => set_syncing st' false
       | None => st
       end.

(** [saveToLocalStorage]: write the cache, then [pushToGitHub()]. *)
Definition saveToLocalStorage (st : app) : app :=
  pushToGitHub (mkApp (books st) (apiToken st) (gistId st) (isSyncing st)
                      (lastSyncTime st) (books st) (remote st)).

Definition finish (st : app) : app :=
  mkApp (books st) (apiToken st) (gistId st) false (Some now_t) (cache st) (remote st).

(** [syncWithGitHub(manualSync)]: create, or pull and overwrite. *)
Definition syncWithGitHub (st : app) : app :=
  if isSyncing st then st
  else if negb (nonempty (trim (apiToken st))) then st
  else
    let st1 := set_syncing st true in
    if negb (nonempty (trim (gistId st))) then
      mkApp (books st) (apiToken st) new_id false (Some now_t) (cache st)
            (Gist (Some (booksToTSV (books st))))
    else
      match remote st with
      | NoGist => set_syncing st false
      | Gist None => finish st1
      | Gist (Some tsv) =>
          let (bs, needsReorder) := tsvToBooks google tsv in
          let st2 := mkApp bs (apiToken st1) (gistId st1) true (lastSyncTime st1)
                           (cache st1) (remote st1) in
          let st3 := saveToLocalStorage st2 in
          if needsReorder then
            match updateGist st3 with
            | Some st4 => finish st4
            | None => set_syncing st3 false
            end
          else finish st3
      end.

End Sync.
End BookSync.

(** The ordering [addedAt <= startedAt <= finishedAt] of a book. *)
Definition book_ordered (b : book) : bool :=
  ts_le (b_addedAt b) (startedAt b) && ts_le (startedAt b) (b_finishedAt b)
  && ts_le (b_addedAt b) (b_finishedAt b).

(* ================================================================== *)
(** ** Sample inputs *)

Definition matrix : screen :=
  {| id := "movie_603"; addedAt := Some "2024-01-01T00:00:00.000Z"; finishedAt := None;
     tmdbId := Some "603"; lastWatchedEpisode := None; tags := Some ["scifi"];
     type := Some "movie"; title := Some "The Matrix"; year := Some "1999";
     posterUrl := Some "https://image.tmdb.org/t/p/w300/m.jpg";
     overview := Some "A hacker learns the truth."; cachedPoster := None |}.

(** A show added on a device whose clock ran ahead of this one. *)
Definition skewed_show : screen :=
  {| id := "tv_1396"; addedAt := Some "2030-01-01T00:00:00.000Z"; finishedAt := None;
     tmdbId := Some "1396"; lastWatchedEpisode := Some "S01E03"; tags := Some [];
     type := Some "tv"; title := Some "Breaking Bad"; year := Some "2008";
     posterUrl := None; overview := Some "A teacher turns to crime."; cachedPoster := None |}.

Definition dune : book :=
  {| b_id := "9780441013593"; isbn := Some "9780441013593"; b_title := Some "Dune";
     author := Some "Frank Herbert"; b_year := Some "1965";
     description := Some "A desert planet."; coverUrl := Some "https://books.example/d.jpg";
     b_tags := Some ["scifi"]; b_addedAt := Some "2024-01-01T00:00:00.000Z";
     startedAt := Some "2024-02-01T00:00:00.000Z"; b_finishedAt := None;
     cachedCover := None |}.

(** The same movie, marked watched on another device. *)
Definition matrix_watched : screen :=
  {| id := "movie_603"; addedAt := Some "2024-01-01T00:00:00.000Z";
     finishedAt := Some "2024-06-01T00:00:00.000Z";
     tmdbId := Some "603"; lastWatchedEpisode := None; tags := Some ["scifi"; "10_stars"];
     type := Some "movie"; title := Some "The Matrix"; year := Some "1999";
     posterUrl := Some "https://image.tmdb.org/t/p/w300/m.jpg";
     overview := Some "A hacker learns the truth."; cachedPoster := None |}.

(** Every entry is stored under its screen's id, and keys are unique. *)
Definition keyed (m : smap) : Prop :=
  NoDup (map fst m) /\ Forall (fun p => id (snd p) = fst p) m.

(** The header cells and the data lines of a book TSV, as [tsvToBooks]
    reads them. *)
Definition tsv_header (tsv : string) : list string :=
  split_on TAB (hd EmptyString (split_on LF (trim tsv))).

Definition tsv_data (tsv : string) : list string := tl (split_on LF (trim tsv)).



(** A book whose title holds a carriage return between two words. *)
Definition cr_book : book :=
  {| b_id := "9780441013593"; isbn := Some "9780441013593";
     b_title := Some ("Dune" ++ str1 CR ++ "Messiah")%string; author := Some "Frank Herbert";
     b_year := Some "1969"; description := Some "Sequel."; coverUrl := None;
     b_tags := Some []; b_addedAt := Some "2024-01-01T00:00:00.000Z";
     startedAt := None; b_finishedAt := None; cachedCover := None |}.

(** A screen whose title holds double quotes. *)
Definition quoted_screen : screen :=
  {| id := "movie_11"; addedAt := Some "2024-02-01T00:00:00.000Z"; finishedAt := None;
     tmdbId := Some "11"; lastWatchedEpisode := None; tags := Some [];
     type := Some "movie"; title := Some ("The " ++ str1 DQUOTE ++ "Best" ++ str1 DQUOTE)%string;
     year := Some "1977"; posterUrl := None; overview := Some "Space.";
     cachedPoster := None |}.

(** A screen saved without an overview, and one tagged with a comma. *)
Definition no_overview : screen :=
  {| id := "movie_603"; addedAt := Some "2024-01-01T00:00:00.000Z"; finishedAt := None;
     tmdbId := Some "603"; lastWatchedEpisode := None; tags := Some [];
     type := Some "movie"; title := Some "The Matrix"; year := Some "1999";
     posterUrl := None; overview := None; cachedPoster := None |}.

Definition comma_tagged : screen :=
  {| id := "movie_603"; addedAt := Some "2024-01-01T00:00:00.000Z"; finishedAt := None;
     tmdbId := Some "603"; lastWatchedEpisode := None; tags := Some ["sci,fi"];
     type := Some "movie"; title := Some "The Matrix"; year := Some "1999";
     posterUrl := None; overview := Some "A hacker learns the truth."; cachedPoster := None |}.

(** The hypotheses under which one screen survives the round trip. *)
Definition roundtrip_ok (s : screen) : Prop :=
  Forall (fun f => contains_char TAB f = false /\ contains_char LF f = false) (screen_fields s)
  /\ Forall (fun t => nonempty t = true /\ contains_char COMMA t = false)
            (match tags s with Some l => l | None => [] end)
  /\ trim (screen_row s) = screen_row s.


(* ================================================================== *)
(** ** Number text *)

(** [n.toString()] of a non-negative integer below [10^21]: its decimal digits. *)
Definition N_to_string (n : N) : string := NilEmpty.string_of_uint (N.to_uint n).

(** [parseInt(d)] of a string [d] of decimal digits (exact below [2^53]). *)
Definition parse_digits (d : string) : N :=
  match NilEmpty.uint_of_string d with Some u => N.of_uint u | None => 0%N end.

Fixpoint repeat_char (n : nat) (c : ascii) : string :=
  match n with O => EmptyString | S n' => String c (repeat_char n' c) end.

(** [s.padStart(len, c)] with a one-character pad. *)
Definition pad_start (len : nat) (c : ascii) (s : string) : string :=
  if (String.length s <? len)%nat then (repeat_char (len - String.length s) c ++ s)%string
  else s.

(** [\d]: an ASCII decimal digit. *)
Definition is_digit (a : ascii) : bool :=
  let n := nat_of_ascii a in ((48 <=? n) && (n <=? 57))%nat.

(* ================================================================== *)
(** ** Rating tags ([getRatingFromTags], [setRatingTag], [getAllUniqueTags];
    the same code in both variants).  A rating is an integer JS number. *)

(** [tag.match(/^\d{2}_stars$/)]. *)
Definition is_rating_tag (t : string) : bool :=
  match t with
  | String d1 (String d2 rest) => is_digit d1 && is_digit d2 && String.eqb rest "_stars"
  | _ => false
  end.

Definition getRatingFromTags (tags : option (list string)) : option Z :=
  match tags with
  | None => None
  | Some l =>
      match find is_rating_tag l with
      | None => None
      | Some ratingTag => Some (Z.of_N (parse_digits (substring 0 2 ratingTag)))
      end
  end.

(** [rating] is [null]/[undefined] ([None]) or an integer. *)
Definition setRatingTag (tags : list string) (rating : option Z) : list string :=
  let tagsWithoutRating := filter (fun t => negb (is_rating_tag t)) tags in
  match rating with
  | Some r =>
      if (1 <=? r)%Z && (r <=? 10)%Z
      then tagsWithoutRating ++ [(pad_start 2 "0" (N_to_string (Z.to_N r)) ++ "_stars")%string]
      else tagsWithoutRating
  | None => tagsWithoutRating
  end.

(** [Set.prototype.add] on a set of strings kept in insertion order. *)
Definition set_add (t : string) (acc : list string) : list string :=
  if existsb (String.eqb t) acc then acc else acc ++ [t].

(** Insertion into a list sorted by code units ([Array.prototype.sort] with
    no comparator; the set's elements are distinct, so every correct sort
    gives this order). *)
Fixpoint insert_sorted (x : string) (l : list string) : list string :=
  match l with
  | [] => [x]
  | y :: l' => if String.ltb y x then y :: insert_sorted x l' else x :: l
  end.

Definition sort_strings (l : list string) : list string := fold_right insert_sorted [] l.

(** [getAllUniqueTags] over the [tags] fields of the collection. *)
Definition getAllUniqueTags (item_tags : list (option (list string))) : list string :=
  let tags := fold_left (fun acc o =>
                match o with
                | Some l => fold_left (fun acc tag =>
                              if negb (is_rating_tag tag) then set_add tag acc else acc) l acc
                | None => acc
                end) item_tags [] in
  sort_strings tags.

(* ================================================================== *)
(** ** Episode tracking ([src/app.js]) *)

Fixpoint span_digits (s : string) : string * string :=
  match s with
  | EmptyString => (EmptyString, EmptyString)
  | String a s' =>
      if is_digit a then let (d, r) := span_digits s' in (String a d, r)
      else (EmptyString, s)
  end.

(** One letter of a case-insensitive pattern. *)
Definition letter_ci (a lower upper : ascii) : bool := Ascii.eqb a lower || Ascii.eqb a upper.

(** [parseEpisodeCode]: [code.match(/^s(\d+)e(\d+)$/i)]; [\d+] cannot take
    the letter [e], so the greedy digit runs are the only match. *)
Definition parseEpisodeCode (code : option string) : option (N * N) :=
  if negb (truthy code) then None
  else
    match or_empty code with
    | String c rest =>
        if letter_ci c "s" "S" then
          let (d1, r1) := span_digits rest in
          match r1 with
          | String e rest2 =>
              if nonempty d1 && letter_ci e "e" "E" then
                let (d2, r2) := span_digits rest2 in
                if nonempty d2 && negb (nonempty r2)
                then Some (parse_digits d1, parse_digits d2) else None
              else None
          | EmptyString => None
          end
        else None
    | EmptyString => None
    end.

Definition formatEpisodeCode (season episode : N) : string :=
  ("s" ++ pad_start 2 "0" (N_to_string season) ++ "e"
   ++ pad_start 2 "0" (N_to_string episode))%string.

Definition isEpisodeWatched (episodeSeason episodeNumber : N)
  (lastWatchedCode : option string) : bool :=
  if negb (truthy lastWatchedCode) then false
  else
    match parseEpisodeCode lastWatchedCode with
    | None => false
    | Some (season, episode) =>
        (episodeSeason <? season)%N
        || ((episodeSeason =? season)%N && (episodeNumber <=? episode)%N)
    end.

(** [state.xs.find(p)] followed by a mutation of the found object: the first
    element satisfying [p] is replaced by its mutated copy. *)
Fixpoint update_first {A : Type} (p : A -> bool) (f : A -> A) (l : list A) : list A :=
  match l with
  | [] => []
  | x :: l' => if p x then f x :: l' else x :: update_first p f l'
  end.

Definition set_lastWatchedEpisode (s : screen) (v : option string) : screen :=
  {| id := id s; addedAt := addedAt s; finishedAt := finishedAt s; tmdbId := tmdbId s;
     lastWatchedEpisode := v; tags := tags s; type := type s; title := title s;
     year := year s; posterUrl := posterUrl s; overview := overview s;
     cachedPoster := cachedPoster s |}.

(** The change [updateLastWatchedEpisode] makes to [state.screens]. *)
Definition updateLastWatchedEpisode (screenId : string) (season episode : N)
  (screens : list screen) : list screen :=
  update_first (fun s => String.eqb (id s) screenId)
    (fun s => set_lastWatchedEpisode s (Some (formatEpisodeCode season episode))) screens.

Definition set_tags (s : screen) (t : option (list string)) : screen :=
  {| id := id s; addedAt := addedAt s; finishedAt := finishedAt s; tmdbId := tmdbId s;
     lastWatchedEpisode := lastWatchedEpisode s; tags := t; type := type s;
     title := title s; year := year s; posterUrl := posterUrl s; overview := overview s;
     cachedPoster := cachedPoster s |}.

(** The change [updateScreenRating] makes to [state.screens]. *)
Definition updateScreenRating (screenId : string) (rating : option Z) (screens : list screen)
  : list screen :=
  update_first (fun s => String.eqb (id s) screenId)
    (fun s => set_tags s (Some (setRatingTag (match tags s with Some l => l | None => [] end)
                                             rating))) screens.

(* ================================================================== *)
(** ** Book collection mutations ([src/unnamed/part_001]); each is the
    change made to [state.books] before [saveToLocalStorage]. *)

Definition set_b_tags (b : book) (t : option (list string)) : book :=
  {| b_id := b_id b; isbn := isbn b; b_title := b_title b; author := author b;
     b_year := b_year b; description := description b; coverUrl := coverUrl b;
     b_tags := t; b_addedAt := b_addedAt b; startedAt := startedAt b;
     b_finishedAt := b_finishedAt b; cachedCover := cachedCover b |}.


Definition has_id (bookId : string) (b : book) : bool := String.eqb (b_id b) bookId.

Definition addTagToBook (bookId tag : string) (books : list book) : list book :=
  update_first (has_id bookId)
    (fun b => let tgs := match b_tags b with Some l => l | None => [] end in
              if includes tgs tag then set_b_tags b (Some tgs)
              else set_b_tags b (Some (tgs ++ [tag]))) books.

Definition removeTagFromBook (bookId tag : string) (books : list book) : list book :=
  update_first (has_id bookId)
    (fun b => match b_tags b with
              | Some l => set_b_tags b (Some (filter (fun t => negb (String.eqb t tag)) l))
              | None => b
              end) books.

Definition updateBookRating (bookId : string) (rating : option Z) (books : list book)
  : list book :=
  update_first (has_id bookId)
    (fun b => set_b_tags b (Some (setRatingTag (match b_tags b with Some l => l | None => [] end)
                                               rating))) books.

(** [confirmDelete] is the answer to the confirmation dialog. *)
Definition removeBook (bookId : string) (confirmDelete : bool) (books : list book)
  : list book :=
  match find (has_id bookId) books with
  | None => books
  | Some _ => if confirmDelete then filter (fun b => negb (has_id bookId b)) books else books
  end.

Definition changeBookListStatus (now bookId newListTag : string) (books : list book)
  : list book :=
  update_first (has_id bookId) (fun b => setBookListTimestamps now b newListTag) books.




(** The [updates] object of the book editor: [id] is present only when the
    ISBN changed ([None] for absent); the other keys are always present. *)
Record book_updates := mkBookUpdates {
  bu_id : option string;
  bu_title : option string; bu_author : option string; bu_year : option string;
  bu_description : option string; bu_coverUrl : option string; bu_isbn : option string
}.

(** [Object.assign(book, updates)]. *)
Definition assign_book (u : book_updates) (b : book) : book :=
  {| b_id := match bu_id u with Some v => v | None => b_id b end; isbn := bu_isbn u;
     b_title := bu_title u; author := bu_author u; b_year := bu_year u;
     description := bu_description u; coverUrl := bu_coverUrl u; b_tags := b_tags b;
     b_addedAt := b_addedAt b; startedAt := startedAt b; b_finishedAt := b_finishedAt b;
     cachedCover := cachedCover b |}.

(** The change [updateBookMetadata] makes to [state.books]. *)
Definition updateBookMetadata (bookId : string) (u : book_updates) (books : list book)
  : list book :=
  match find (has_id bookId) books with
  | None => books
  | Some _ =>
      if truthy (bu_id u) && negb (String.eqb (or_empty (bu_id u)) bookId)
         && match find (has_id (or_empty (bu_id u))) books with Some _ => true | None => false end
      then books
      else update_first (has_id bookId) (assign_book u) books
  end.

(** The [updates] object of the screen editor ([id] never set by it). *)
Record screen_updates := mkScreenUpdates {
  su_id : option string;
  su_title : option string; su_type : option string; su_year : option string;
  su_posterUrl : option string; su_overview : option string
}.

Definition assign_screen (u : screen_updates) (s : screen) : screen :=
  {| id := match su_id u with Some v => v | None => id s end; addedAt := addedAt s;
     finishedAt := finishedAt s; tmdbId := tmdbId s;
     lastWatchedEpisode := lastWatchedEpisode s; tags := tags s; type := su_type u;
     title := su_title u; year := su_year u; posterUrl := su_posterUrl u;
     overview := su_overview u; cachedPoster := cachedPoster s |}.

(** The change [updateScreenMetadata] makes to [state.screens]. *)
Definition updateScreenMetadata (screenId : string) (u : screen_updates)
  (screens : list screen) : list screen :=
  match find (fun s => String.eqb (id s) screenId) screens with
  | None => screens
  | Some _ =>
      if truthy (su_id u) && negb (String.eqb (or_empty (su_id u)) screenId)
         && match find (fun s => String.eqb (id s) (or_empty (su_id u))) screens with
            | Some _ => true | None => false end
      then screens
      else update_first (fun s => String.eqb (id s) screenId) (assign_screen u) screens
  end.

(* ================================================================== *)
(** ** Tag filters of [renderScreens] and [renderBooks] *)

Definition screen_status_name (s : screen_status) : string :=
  match s with to_watch => "to_watch" | watching => "watching" | watched => "watched" end.

Definition book_status_name (s : book_status) : string :=
  match s with to_read => "to_read" | reading => "reading" | read => "read" end.

Definition screen_matches (filterTags : list string) (s : screen) : bool :=
  forallb (fun filterTag =>
             if includes ["to_watch"; "watching"; "watched"] filterTag
             then match getScreenListStatus s with
                  | Some st => String.eqb (screen_status_name st) filterTag
                  | None => false
                  end
             else match tags s with Some l => includes l filterTag | None => false end)
          filterTags.

Definition filter_screens (filterTags : list string) (screens : list screen) : list screen :=
  if (0 <? List.length filterTags)%nat then filter (screen_matches filterTags) screens
  else screens.

Definition book_matches (filterTags : list string) (b : book) : bool :=
  forallb (fun tag =>
             if String.eqb tag "to_read" || String.eqb tag "reading" || String.eqb tag "read"
             then match getBookListStatus b with
                  | Some st => String.eqb (book_status_name st) tag
                  | None => false
                  end
             else match b_tags b with Some l => includes l tag | None => false end)
          filterTags.

Definition filter_books (filterTags : list string) (books : list book) : list book :=
  if (0 <? List.length filterTags)%nat then filter (book_matches filterTags) books else books.

(** [x.tags || []]. *)
Definition tags_or_empty (o : option (list string)) : list string :=
  match o with Some l => l | None => [] end.

(** The map that [mergeScreens] builds from a list with unique ids. *)
Definition entries (l : list screen) : smap := map (fun s => (id s, s)) l.


(** A cell that survives a TSV round trip: non-empty, already trimmed, and
    free of the tab and newline separators. *)
Definition field_text (x : string) : Prop :=
  nonempty x = true /\ trim x = x /\ contains_char TAB x = false /\ contains_char LF x = false.

(** An optional timestamp cell: absent, or a clean cell. *)
Definition ts_text (o : option string) : Prop :=
  match o with Some x => field_text x | None => True end.

(** A book whose [booksToTSV] line [tsvToBooks] reads back as it was:
    every text field clean and set, timestamps set in the order addedAt,
    startedAt, finishedAt and ordered. *)
Definition book_exportable (b : book) : Prop :=
  (exists v, isbn b = Some v /\ field_text v)
  /\ (exists v, b_title b = Some v /\ field_text v
                /\ contains_char CR v = false /\ contains_char DQUOTE v = false)
  /\ (exists v, author b = Some v /\ field_text v
                /\ contains_char CR v = false /\ contains_char DQUOTE v = false)
  /\ (exists v, b_year b = Some v /\ field_text v)
  /\ (exists v, coverUrl b = Some v /\ field_text v)
  /\ (exists v, description b = Some v /\ field_text v
                /\ contains_char CR v = false /\ contains_char DQUOTE v = false)
  /\ Forall (fun t => field_text t /\ contains_char COMMA t = false) (tags_or_empty (b_tags b))
  /\ ts_text (b_addedAt b) /\ ts_text (startedAt b) /\ ts_text (b_finishedAt b)
  /\ (truthy (startedAt b) = true -> truthy (b_addedAt b) = true)
  /\ (truthy (b_finishedAt b) = true -> truthy (startedAt b) = true)
  /\ book_ordered b = true.

(** What [tsvToBooks] rebuilds from a book's line: the id becomes the
    ISBN, a missing tag list becomes empty, the cover cache is dropped. *)
Definition synced_copy (b : book) : book :=
  {| b_id := or_empty (isbn b); isbn := isbn b; b_title := b_title b; author := author b;
     b_year := b_year b; description := description b; coverUrl := coverUrl b;
     b_tags := Some (tags_or_empty (b_tags b)); b_addedAt := b_addedAt b;
     startedAt := startedAt b; b_finishedAt := b_finishedAt b; cachedCover := None |}.

(** ** Sorting ([sortBooks] of [src/unnamed/part_001]) *)

(** [String.prototype.toLowerCase] on ASCII text. *)
Definition lower_char (c : ascii) : ascii :=
  let n := nat_of_ascii c in
  if ((65 <=? n) && (n <=? 90))%nat then ascii_of_nat (n + 32)%nat else c.

Fixpoint toLowerCase (s : string) : string :=
  match s with
  | EmptyString => EmptyString
  | String c s' => String (lower_char c) (toLowerCase s')
  end.

(** The values the comparator compares: strings, numbers, or [undefined]
    (a book without a year). *)
Inductive sort_key := KStr (s : string) | KNum (n : Z) | KUndef.

(** [aVal] for one book; [None] is the [TypeError] of [toLowerCase] on a
    missing title or author. *)
Definition sort_value (sortBy : string) (b : book) : option sort_key :=
  if String.eqb sortBy "title" then option_map (fun t => KStr (toLowerCase t)) (b_title b)
  else if String.eqb sortBy "author" then option_map (fun t => KStr (toLowerCase t)) (author b)
  else if String.eqb sortBy "year" then
    Some (match b_year b with
          | Some y => KStr (if String.eqb y "N/A" then "0" else y)
          | None => KUndef
          end)
  else if String.eqb sortBy "rating" then
    Some (KNum (match getRatingFromTags (b_tags b) with Some r => r | None => 0 end))
  else if String.eqb sortBy "startedAt" then Some (KStr (or_empty (startedAt b)))
  else if String.eqb sortBy "finishedAt" then Some (KStr (or_empty (b_finishedAt b)))
  else Some (KStr (or_empty (b_addedAt b))).

(** [aVal < bVal]: code-unit order on strings, numeric order on numbers;
    a comparison with [undefined] is false. *)
Definition key_lt (a b : sort_key) : bool :=
  match a, b with
  | KStr x, KStr y => String.ltb x y
  | KNum x, KNum y => Z.ltb x y
  | _, _ => false
  end.

(** The comparator passed to [sorted.sort]. *)
Definition sort_cmp (asc : bool) (a b : sort_key) : Z :=
  if key_lt a b then (if asc then -1 else 1)
  else if key_lt b a then (if asc then 1 else -1)
  else 0.

(** [Array.prototype.sort] is stable: each element goes before the first
    one it does not compare greater than, behind all earlier equal ones. *)
Fixpoint insert_by {A : Type} (c : A -> A -> Z) (x : A) (l : list A) : list A :=
  match l with
  | [] => [x]
  | y :: l' => if (0 <? c x y)%Z then y :: insert_by c x l' else x :: l
  end.

Definition stable_sort {A : Type} (c : A -> A -> Z) (l : list A) : list A :=
  fold_right (insert_by c) [] l.

(** Each book with its [aVal]; [None] if one of them throws. *)
Fixpoint keyed_books (sortBy : string) (l : list book) : option (list (sort_key * book)) :=
  match l with
  | [] => Some []
  | b :: l' =>
      match sort_value sortBy b, keyed_books sortBy l' with
      | Some k, Some r => Some ((k, b) :: r)
      | _, _ => None
      end
  end.

(** [sortBooks] with [state.sortBy] and [state.sortOrder]; [None] is the
    thrown [TypeError].  A list of fewer than two books is never compared;
    a sort of two or more compares every element, so one throwing key
    throws. *)
Definition sortBooks (sortBy sortOrder : string) (books : list book) : option (list book) :=
  if (List.length books <? 2)%nat then Some books
  else
    match keyed_books sortBy books with
    | None => None
    | Some kb =>
        Some (map snd (stable_sort (fun p q => sort_cmp (String.eqb sortOrder "asc") (fst p) (fst q)) kb))
    end.



(** The number of occurrences of a character in a string. *)
Fixpoint count_char (c : ascii) (s : string) : nat :=
  match s with
  | EmptyString => 0
  | String a s' => (if Ascii.eqb a c then 1 else 0) + count_char c s'
  end.

(** A screen as [showManualEntryModal] creates it (then added to a list,
    so with an addedAt): no TMDB id, no poster, an empty overview. *)
Definition manual_screen : screen :=
  {| id := "manual_1700000000000"; addedAt := Some "2024-01-01T00:00:00.000Z";
     finishedAt := None; tmdbId := None; lastWatchedEpisode := None; tags := Some [];
     type := Some "movie"; title := Some "Home video"; year := Some "";
     posterUrl := None; overview := Some ""; cachedPoster := None |}.

(* ================================================================== *)
(** * Properties *)

(** ** String lemmas *)

Lemma contains_char_app (c : ascii) (s1 s2 : string) :
  contains_char c (s1 ++ s2) = contains_char c s1 || contains_char c s2.
Proof.
  induction s1 as [|a s1 IH]; simpl; [reflexivity|].
  rewrite IH, orb_assoc. reflexivity.
Qed.

Lemma replace_char_clears (c : ascii) (d s : string) :
  contains_char c d = false -> contains_char c (replace_char c d s) = false.
Proof.
  intros Hd. induction s as [|a s IH]; simpl; [reflexivity|].
  destruct (Ascii.eqb a c) eqn:E.
  - rewrite contains_char_app, Hd, IH. reflexivity.
  - simpl. rewrite E, IH. reflexivity.
Qed.

Lemma replace_char_keeps_absent (c c' : ascii) (d s : string) :
  contains_char c d = false -> contains_char c s = false ->
  contains_char c (replace_char c' d s) = false.
Proof.
  intros Hd. induction s as [|a s IH]; simpl; [reflexivity|].
  intros H. apply orb_false_iff in H as [Ha Hs].
  destruct (Ascii.eqb a c') eqn:E.
  - rewrite contains_char_app, Hd, IH by exact Hs. reflexivity.
  - simpl. rewrite Ha, IH by exact Hs. reflexivity.
Qed.

Lemma replace_char_absent_id (c : ascii) (d s : string) :
  contains_char c s = false -> replace_char c d s = s.
Proof.
  induction s as [|a s IH]; simpl; [reflexivity|].
  intros H. apply orb_false_iff in H as [Ha Hs].
  rewrite Ha, IH by exact Hs. reflexivity.
Qed.

Lemma replace_char_changes (c e : ascii) (s : string) :
  Ascii.eqb e c = false ->
  String.eqb (replace_char c (str1 e) s) s = negb (contains_char c s).
Proof.
  intros Hec. induction s as [|a s IH]; simpl; [reflexivity|].
  destruct (Ascii.eqb a c) eqn:E; simpl.
  - apply Ascii.eqb_eq in E. subst a. rewrite Hec. reflexivity.
  - rewrite Ascii.eqb_refl. exact IH.
Qed.

(** ** Order on timestamps (JS string comparison) *)

Lemma str_compare_le_trans (x y z : string) :
  String.compare x y <> Gt -> String.compare y z <> Gt -> String.compare x z <> Gt.
Proof.
  revert y z; induction x as [|a x IH]; intros [|b y] [|c z]; simpl; try congruence.
  unfold Ascii.compare.
  destruct (N.compare_spec (N_of_ascii a) (N_of_ascii b)) as [Eab|Lab|Gab];
  destruct (N.compare_spec (N_of_ascii b) (N_of_ascii c)) as [Ebc|Lbc|Gbc];
  intros H1 H2; try congruence.
  - rewrite Eab, Ebc, N.compare_refl. eapply IH; eauto.
  - rewrite Eab, (proj2 (N.compare_lt_iff _ _) Lbc). congruence.
  - rewrite <- Ebc, (proj2 (N.compare_lt_iff _ _) Lab). congruence.
  - rewrite (proj2 (N.compare_lt_iff _ _) (N.lt_trans _ _ _ Lab Lbc)). congruence.
Qed.

Lemma str_leb_iff (x y : string) : String.leb x y = true <-> String.compare x y <> Gt.
Proof. unfold String.leb. destruct (String.compare x y); split; congruence. Qed.

Lemma str_gt_false_leb (x y : string) : str_gt x y = false -> String.leb x y = true.
Proof.
  unfold str_gt, String.ltb. intros H. apply str_leb_iff.
  rewrite String.compare_antisym. destruct (String.compare y x); simpl; congruence.
Qed.

Lemma str_leb_refl (x : string) : String.leb x x = true.
Proof.
  apply str_leb_iff. induction x as [|a x IH]; simpl; [congruence|].
  unfold Ascii.compare. rewrite N.compare_refl. exact IH.
Qed.

Lemma ts_le_refl (a : option string) : ts_le a a = true.
Proof.
  destruct a as [x|]; simpl; [|reflexivity].
  destruct (nonempty x && nonempty x); [apply str_leb_refl|reflexivity].
Qed.

Lemma repair_le (e l : option string) : ts_le (repair e l) l = true.
Proof.
  unfold repair. destruct (negb (truthy e) || ts_gt e l) eqn:H; [apply ts_le_refl|].
  apply orb_false_iff in H as [H1 H2].
  destruct e as [x|]; [|discriminate]. destruct l as [y|]; [|reflexivity].
  simpl in *. destruct (nonempty x && nonempty y); [|reflexivity].
  apply str_gt_false_leb. exact H2.
Qed.

Lemma repair_shape (e l : option string) :
  repair e l = l \/ (truthy (repair e l) = true /\ ts_le (repair e l) l = true).
Proof.
  destruct (negb (truthy e) || ts_gt e l) eqn:H.
  - left. unfold repair. rewrite H. reflexivity.
  - right. split; [|apply repair_le].
    unfold repair. rewrite H. apply orb_false_iff in H as [H1 _].
    destruct (truthy e); [reflexivity|discriminate].
Qed.

Lemma ts_le_trans (a b c : option string) :
  truthy b = true -> ts_le a b = true -> ts_le b c = true -> ts_le a c = true.
Proof.
  destruct a as [x|], b as [y|], c as [z|]; simpl; try reflexivity; try discriminate.
  intros Hy. rewrite Hy. rewrite !andb_true_r.
  destruct (nonempty x) eqn:Hx, (nonempty z) eqn:Hz; simpl; try reflexivity.
  intros H1 H2. apply str_leb_iff in H1, H2. apply str_leb_iff.
  eapply str_compare_le_trans; eassumption.
Qed.

(** The book variant's repair keeps the ordering for each of its three
    target statuses, whatever the timestamps were before. *)
Lemma setBookListTimestamps_to_read_ordered (now : string) (b : book) :
  book_ordered (setBookListTimestamps now b "to_read") = true.
Proof. reflexivity. Qed.

Lemma setBookListTimestamps_reading_ordered (now : string) (b : book) :
  book_ordered (setBookListTimestamps now b "reading") = true.
Proof.
  unfold book_ordered, setBookListTimestamps. simpl.
  rewrite repair_le. destruct (repair (b_addedAt b) (Some now)) as [x|]; reflexivity.
Qed.

Lemma setBookListTimestamps_read_ordered (now : string) (b : book) :
  book_ordered (setBookListTimestamps now b "read") = true.
Proof.
  unfold book_ordered, setBookListTimestamps. simpl.
  set (st := repair (startedAt b) (Some now)).
  assert (Hst : ts_le st (Some now) = true) by apply repair_le.
  rewrite repair_le, Hst. simpl.
  destruct (repair_shape (b_addedAt b) st) as [E|[T L]].
  - rewrite E. apply repair_le.
  - destruct (repair_shape (startedAt b) (Some now)) as [E2|[T2 L2]].
    + fold st in E2. rewrite E2 in L |- *. exact L.
    + fold st in T2, L2. eapply ts_le_trans; eassumption.
Qed.

(** ** Status derivation *)

(** Claim C7 (amended): status derivation is a total function with exactly
    one result (a status or none).  Screen variant: watched iff finishedAt is
    set; watching iff not finished, the screen is a TV show and a
    last-watched episode is set; to-watch iff none of these and addedAt is set;
    none otherwise.  Book variant: read iff finishedAt is set; reading iff not
    finished and startedAt is set; to-read iff neither and addedAt is set;
    none otherwise. *)
Theorem status_derivation :
  (forall s, getScreenListStatus s = Some watched <-> truthy (finishedAt s) = true) /\
  (forall s, getScreenListStatus s = Some watching <->
     truthy (finishedAt s) = false /\ is_str (type s) "tv" = true
     /\ truthy (lastWatchedEpisode s) = true) /\
  (forall s, getScreenListStatus s = Some to_watch <->
     truthy (finishedAt s) = false
     /\ is_str (type s) "tv" && truthy (lastWatchedEpisode s) = false
     /\ truthy (addedAt s) = true) /\
  (forall s, getScreenListStatus s = None <->
     truthy (finishedAt s) = false
     /\ is_str (type s) "tv" && truthy (lastWatchedEpisode s) = false
     /\ truthy (addedAt s) = false) /\
  (forall b, getBookListStatus b = Some read <-> truthy (b_finishedAt b) = true) /\
  (forall b, getBookListStatus b = Some reading <->
     truthy (b_finishedAt b) = false /\ truthy (startedAt b) = true) /\
  (forall b, getBookListStatus b = Some to_read <->
     truthy (b_finishedAt b) = false /\ truthy (startedAt b) = false
     /\ truthy (b_addedAt b) = true) /\
  (forall b, getBookListStatus b = None <->
     truthy (b_finishedAt b) = false /\ truthy (startedAt b) = false
     /\ truthy (b_addedAt b) = false).
Proof.
  repeat apply conj; intro x;
    [ unfold getScreenListStatus;
      destruct (truthy (finishedAt x)), (is_str (type x) "tv"),
               (truthy (lastWatchedEpisode x)), (truthy (addedAt x))
    .. | | | | ];
    try (unfold getBookListStatus;
         destruct (truthy (b_finishedAt x)), (truthy (startedAt x)), (truthy (b_addedAt x)));
    simpl; split; intuition congruence.
Qed.

(** Claim C7 (counterexample): a book that is not finished and is no episodic
    item, with addedAt and startedAt set, is derived as reading, not as the
    pending status the claim's rule gives it. *)
Lemma status_book_started_is_reading :
  truthy (b_finishedAt dune) = false /\ truthy (b_addedAt dune) = true
  /\ getBookListStatus dune = Some reading.
Proof. repeat split. Qed.

(** ** Timestamp repair *)

(** Claim C8 (code bug): marking a screen watched sets finishedAt to now but
    only fills a missing addedAt; an addedAt later than now (written by a
    device whose clock ran ahead) stays after finishedAt.  The book variant
    repairs the same case ([setBookListTimestamps_read_ordered]). *)
Theorem setListTimestamps_watched_keeps_later_addedAt :
  let s := setListTimestamps "2026-10-17T09:00:00.000Z" skewed_show "watched" in
  addedAt s = Some "2030-01-01T00:00:00.000Z"
  /\ finishedAt s = Some "2026-10-17T09:00:00.000Z"
  /\ ts_le (addedAt s) (finishedAt s) = false.
Proof. vm_compute. repeat split. Qed.

(** ** The id-keyed map of [mergeScreens] *)

Lemma map_get_set_same (k : string) (v : screen) (m : smap) :
  map_get k (map_set k v m) = Some v.
Proof.
  induction m as [|[k' v'] m IH]; simpl; [rewrite String.eqb_refl; reflexivity|].
  destruct (String.eqb k k') eqn:E; simpl.
  - rewrite String.eqb_refl. reflexivity.
  - rewrite E. exact IH.
Qed.

Lemma map_get_set_other (k k' : string) (v : screen) (m : smap) :
  k <> k' -> map_get k (map_set k' v m) = map_get k m.
Proof.
  intros Hne. induction m as [|[k'' v''] m IH]; simpl.
  - apply String.eqb_neq in Hne. rewrite Hne. reflexivity.
  - destruct (String.eqb k' k'') eqn:E; simpl.
    + apply String.eqb_eq in E. subst k''.
      apply String.eqb_neq in Hne. rewrite Hne. reflexivity.
    + destruct (String.eqb k k''); [reflexivity|exact IH].
Qed.

Lemma map_get_in (k : string) (v : screen) (m : smap) :
  map_get k m = Some v -> In v (map snd m).
Proof.
  induction m as [|[k' v'] m IH]; simpl; [discriminate|].
  destruct (String.eqb k k'); [intros [= ->]; left; reflexivity|].
  intros H. right. exact (IH H).
Qed.

Lemma map_set_keys (k : string) (v : screen) (m : smap) (k' : string) :
  In k' (map fst (map_set k v m)) <-> k' = k \/ In k' (map fst m).
Proof.
  induction m as [|[k'' v''] m IH]; simpl; [intuition congruence|].
  destruct (String.eqb k k'') eqn:E; simpl.
  - apply String.eqb_eq in E. subst. intuition congruence.
  - rewrite IH. intuition congruence.
Qed.

Lemma map_set_keyed (v : screen) (m : smap) :
  keyed m -> keyed (map_set (id v) v m).
Proof.
  induction m as [|[k' v'] m IH]; intros [Hnd Hf]; simpl.
  - split; [constructor; [simpl; tauto|constructor]|constructor; [reflexivity|constructor]].
  - inversion Hnd as [|? ? Hnin Hnd']; subst. inversion Hf as [|? ? Hk Hf']; subst.
    destruct (String.eqb (id v) k') eqn:E.
    + apply String.eqb_eq in E. subst k'.
      split; [constructor; assumption|constructor; [reflexivity|assumption]].
    + destruct (IH (conj Hnd' Hf')) as [Hnd2 Hf2]. split.
      * simpl. constructor; [|exact Hnd2].
        rewrite map_set_keys. apply String.eqb_neq in E. intros [H|H]; [congruence|tauto].
      * constructor; assumption.
Qed.

Lemma keyed_in_get (m : smap) (v : screen) :
  keyed m -> In v (map snd m) -> map_get (id v) m = Some v.
Proof.
  induction m as [|[k' v'] m IH]; intros [Hnd Hf] Hin; simpl in *; [contradiction|].
  inversion Hnd as [|? ? Hnin Hnd']; subst. inversion Hf as [|? ? Hk Hf']; subst.
  simpl in Hk. destruct Hin as [<-|Hin].
  - rewrite Hk, String.eqb_refl. reflexivity.
  - assert (Hne : id v <> k').
    { intros E. apply Hnin. rewrite <- E.
      clear -Hf' Hin. induction m as [|[a b] m IHm]; simpl in *; [contradiction|].
      inversion Hf'; subst. destruct Hin as [<-|Hin]; [left; simpl in *; congruence|right; auto]. }
    apply String.eqb_neq in Hne. rewrite Hne. apply IH; [split|]; assumption.
Qed.

Lemma fold_set_keyed (l : list screen) (m : smap) :
  keyed m -> keyed (fold_left (fun m s => map_set (id s) s m) l m).
Proof.
  revert m; induction l as [|s l IH]; intros m Hk; simpl; [exact Hk|].
  apply IH, map_set_keyed, Hk.
Qed.

Lemma fold_set_other (l : list screen) (m : smap) (k : string) :
  ~ In k (map id l) ->
  map_get k (fold_left (fun m s => map_set (id s) s m) l m) = map_get k m.
Proof.
  revert m; induction l as [|s l IH]; intros m Hn; simpl in *; [reflexivity|].
  rewrite IH by tauto. apply map_get_set_other. intros E. apply Hn. left. congruence.
Qed.

Lemma fold_set_get (l : list screen) (m : smap) (x : screen) :
  NoDup (map id l) -> In x l ->
  map_get (id x) (fold_left (fun m s => map_set (id s) s m) l m) = Some x.
Proof.
  revert m; induction l as [|s l IH]; intros m Hnd Hin; simpl in *; [contradiction|].
  inversion Hnd as [|? ? Hnin Hnd']; subst.
  destruct Hin as [<-|Hin].
  - rewrite fold_set_other by exact Hnin. apply map_get_set_same.
  - apply IH; assumption.
Qed.

Section MergeProps.
Variable parse_date : string -> option Z.

Lemma merge_remote_keyed (m : smap) (r : screen) :
  keyed m -> keyed (merge_remote parse_date m r).
Proof.
  intros Hk. unfold merge_remote.
  destruct (map_get (id r) m); [destruct (remote_wins parse_date s r)|];
    try apply map_set_keyed; exact Hk.
Qed.

Lemma fold_merge_keyed (rs : list screen) (m : smap) :
  keyed m -> keyed (fold_left (merge_remote parse_date) rs m).
Proof.
  revert m; induction rs as [|r rs IH]; intros m Hk; simpl; [exact Hk|].
  apply IH, merge_remote_keyed, Hk.
Qed.

Lemma merge_remote_other (m : smap) (r : screen) (k : string) :
  k <> id r -> map_get k (merge_remote parse_date m r) = map_get k m.
Proof.
  intros Hne. unfold merge_remote.
  destruct (map_get (id r) m); [destruct (remote_wins parse_date s r)|];
    try apply map_get_set_other; auto.
Qed.

Lemma fold_merge_other (rs : list screen) (m : smap) (k : string) :
  ~ In k (map id rs) ->
  map_get k (fold_left (merge_remote parse_date) rs m) = map_get k m.
Proof.
  revert m; induction rs as [|r rs IH]; intros m Hn; simpl in *; [reflexivity|].
  rewrite IH by tauto. apply merge_remote_other. intros E. apply Hn. left. congruence.
Qed.

Lemma merge_remote_at (m : smap) (l r : screen) :
  map_get (id r) m = Some l ->
  map_get (id r) (merge_remote parse_date m r)
  = Some (if remote_wins parse_date l r then r else l).
Proof.
  intros Hg. unfold merge_remote. rewrite Hg.
  destruct (remote_wins parse_date l r); [apply map_get_set_same|exact Hg].
Qed.

End MergeProps.

(** ** Merge *)

(** Claim C1 (amended): [mergeScreens] takes no last-sync time; every local
    screen whose id does not occur in the remote list is kept in the merged
    list, whatever its addedAt (local ids being unique). *)
Theorem mergeScreens_keeps_local_only
    (parse_date : string -> option Z) (L R : list screen) (x : screen) :
  NoDup (map id L) -> In x L -> ~ In (id x) (map id R) ->
  In x (mergeScreens parse_date L R).
Proof.
  intros Hnd Hin Hnr. unfold mergeScreens.
  apply (map_get_in (id x)).
  rewrite fold_merge_other by exact Hnr.
  apply fold_set_get; assumption.
Qed.

Lemma mergeScreens_keeps_local_only_witness :
  NoDup (map id [matrix]) /\ In matrix [matrix] /\ ~ In (id matrix) (map id [skewed_show])
  /\ In matrix (mergeScreens iso_digits [matrix] [skewed_show]).
Proof.
  assert (H1 : NoDup (map id [matrix])) by (repeat constructor; simpl; tauto).
  assert (H2 : In matrix [matrix]) by (simpl; tauto).
  assert (H3 : ~ In (id matrix) (map id [skewed_show])) by (simpl; intuition discriminate).
  split; [exact H1|split; [exact H2|split; [exact H3|]]].
  exact (mergeScreens_keeps_local_only iso_digits [matrix] [skewed_show] matrix H1 H2 H3).
Defined.

(** Claim C1 (counterexample): a local screen added before the last sync time
    and absent from the remote list is still in the merged list. *)
Lemma merge_keeps_item_added_before_last_sync :
  String.leb (or_empty (addedAt matrix)) "2025-01-01T00:00:00.000Z" = true
  /\ ~ In (id matrix) (map id [])
  /\ In matrix (mergeScreens iso_digits [matrix] []).
Proof.
  split; [reflexivity|split; [simpl; tauto|]].
  vm_compute. left. reflexivity.
Qed.

Lemma remote_wins_at (parse_date : string -> option Z) (l r : screen) (tl tr : Z) :
  getLatestTimestamp parse_date l = Some (At tl) ->
  getLatestTimestamp parse_date r = Some (At tr) ->
  remote_wins parse_date l r = Z.ltb tl tr.
Proof.
  intros Hl Hr. unfold remote_wins. rewrite Hl, Hr. simpl. apply Z.gtb_ltb.
Qed.

(** Claim C3: when the same id is in both lists and the most recent
    timestamps of the two copies differ, the merged list holds the copy with
    the later timestamp, as it is, and not the other copy. *)
Theorem mergeScreens_later_copy_wins
    (parse_date : string -> option Z) (L R : list screen) (l r : screen) (tl tr : Z) :
  NoDup (map id L) -> NoDup (map id R) -> In l L -> In r R -> id l = id r ->
  getLatestTimestamp parse_date l = Some (At tl) ->
  getLatestTimestamp parse_date r = Some (At tr) ->
  tl <> tr ->
  In (if Z.ltb tl tr then r else l) (mergeScreens parse_date L R)
  /\ ~ In (if Z.ltb tl tr then l else r) (mergeScreens parse_date L R).
Proof.
  intros HndL HndR HinL HinR Hid Hl Hr Hne.
  set (m0 := fold_left (fun m s => map_set (id s) s m) L []).
  assert (Hg0 : map_get (id r) m0 = Some l).
  { rewrite <- Hid. apply fold_set_get; assumption. }
  destruct (in_split r R) as (R1 & R2 & ->); [exact HinR|].
  rewrite map_app in HndR. simpl in HndR.
  assert (Hn : ~ In (id r) (map id R1 ++ map id R2)) by (eapply NoDup_remove_2; eauto).
  rewrite in_app_iff in Hn.
  set (final := fold_left (merge_remote parse_date) (R1 ++ r :: R2) m0).
  assert (Hgf : map_get (id r) final = Some (if Z.ltb tl tr then r else l)).
  { unfold final. rewrite fold_left_app. simpl.
    rewrite fold_merge_other by tauto.
    rewrite <- (remote_wins_at parse_date l r tl tr Hl Hr).
    apply merge_remote_at.
    rewrite fold_merge_other by tauto. exact Hg0. }
  assert (Hk : keyed final).
  { apply fold_merge_keyed, fold_set_keyed. split; constructor. }
  unfold mergeScreens. fold m0. fold final.
  split.
  - apply (map_get_in (id r)). exact Hgf.
  - intros Hin. apply keyed_in_get in Hin; [|exact Hk].
    assert (Hsame : forall a b : screen, a = b -> getLatestTimestamp parse_date a
                                               = getLatestTimestamp parse_date b)
      by (intros; subst; reflexivity).
    destruct (Z.ltb tl tr).
    + rewrite Hid, Hgf in Hin. injection Hin as E.
      apply Hne. apply Hsame in E. rewrite Hl, Hr in E. congruence.
    + rewrite Hgf in Hin. injection Hin as E.
      apply Hne. apply Hsame in E. rewrite Hl, Hr in E. congruence.
Qed.

Lemma mergeScreens_later_copy_wins_witness :
  In matrix_watched (mergeScreens iso_digits [matrix] [matrix_watched])
  /\ ~ In matrix (mergeScreens iso_digits [matrix] [matrix_watched]).
Proof.
  assert (H := mergeScreens_later_copy_wins iso_digits [matrix] [matrix_watched]
                 matrix matrix_watched 20240101000000000%Z 20240601000000000%Z).
  assert (H1 : NoDup (map id [matrix])) by (repeat constructor; simpl; tauto).
  assert (H2 : NoDup (map id [matrix_watched])) by (repeat constructor; simpl; tauto).
  assert (H3 : In matrix [matrix]) by (simpl; tauto).
  assert (H4 : In matrix_watched [matrix_watched]) by (simpl; tauto).
  assert (H5 : id matrix = id matrix_watched) by reflexivity.
  assert (H6 : getLatestTimestamp iso_digits matrix = Some (At 20240101000000000%Z))
    by (vm_compute; reflexivity).
  assert (H7 : getLatestTimestamp iso_digits matrix_watched = Some (At 20240601000000000%Z))
    by (vm_compute; reflexivity).
  assert (H8 : 20240101000000000%Z <> 20240601000000000%Z) by lia.
  exact (H H1 H2 H3 H4 H5 H6 H7 H8).
Defined.

(** ** Sync after a local mutation *)

(** Claim C2 (code bug): in the screen variant, [saveToLocalStorage] (commented
    "silent push") runs the full [syncWithGitHub(false)]: it pulls the gist
    and merges it into the collection.  Deleting a screen that the gist still
    holds therefore puts it straight back. *)
Theorem screen_delete_is_undone_by_save_sync :
  let st := ScreenSync.mkApp [matrix] "ghp_token" "gist1" false None [matrix]
                             (Gist (Some (screensToTSV [matrix]))) in
  let st' := ScreenSync.deleteScreen iso_digits "1760000000000" 5%Z "gist2" "movie_603" st in
  map id (ScreenSync.screens st') = ["movie_603"]
  /\ map id (ScreenSync.cache st') = ["movie_603"]
  /\ ScreenSync.remote st' = Gist (Some (screensToTSV (ScreenSync.screens st'))).
Proof. vm_compute. repeat split. Qed.

(** The book variant's save is push-only: the collection is left as it is and
    the gist, when written, receives the encoding of that collection. *)
Lemma book_save_is_push_only (st : BookSync.app) :
  BookSync.books (BookSync.saveToLocalStorage st) = BookSync.books st
  /\ BookSync.cache (BookSync.saveToLocalStorage st) = BookSync.books st
  /\ (BookSync.remote (BookSync.saveToLocalStorage st) = BookSync.remote st
      \/ BookSync.remote (BookSync.saveToLocalStorage st)
         = Gist (Some (booksToTSV (BookSync.books st)))).
Proof.
  unfold BookSync.saveToLocalStorage, BookSync.pushToGitHub, BookSync.updateGist; simpl.
  destruct (negb (nonempty (trim (BookSync.apiToken st)))
            || negb (nonempty (trim (BookSync.gistId st)))); simpl; [tauto|].
  destruct (BookSync.isSyncing st); simpl; [tauto|].
  destruct (BookSync.remote st); simpl; tauto.
Qed.

(** ** Full reconciliation of the book variant *)



(** ** Encode sanitization *)

Lemma escapeField_clean (o : option string) (c : ascii) :
  In c [TAB; LF; CR; DQUOTE] -> contains_char c (escapeField o) = false.
Proof.
  intros Hc. unfold escapeField. destruct (negb (truthy o)); [reflexivity|].
  destruct Hc as [<-|[<-|[<-|[<-|[]]]]];
    repeat first [ apply replace_char_clears; reflexivity
                 | apply replace_char_keeps_absent; [reflexivity|] ].
Qed.

Lemma escapeField_clean_id (s : string) :
  Forall (fun c => contains_char c s = false) [TAB; LF; CR; DQUOTE] ->
  escapeField (Some s) = s.
Proof.
  intros H. inversion_clear H as [|? ? Ht H1]. inversion_clear H1 as [|? ? Hl H2].
  inversion_clear H2 as [|? ? Hr H3]. inversion_clear H3 as [|? ? Hq _].
  unfold escapeField. simpl.
  destruct (nonempty s) eqn:E; simpl.
  - rewrite (replace_char_absent_id TAB), (replace_char_absent_id LF),
      (replace_char_absent_id CR), (replace_char_absent_id DQUOTE) by assumption.
    reflexivity.
  - unfold nonempty in E. apply negb_false_iff, String.eqb_eq in E. symmetry. exact E.
Qed.

(** Claim C5 (corrected).  In the book variant every emitted data row comes
    from a book with an ISBN and has ten fields; its title, author and
    description fields (columns 5, 6 and 9) contain no tab, newline, carriage
    return or double quote, and a value free of those characters is emitted
    unchanged by [escapeField].  The timestamps, ISBN, tags, year and cover
    URL are emitted as stored, and [escapeField] deletes a carriage return
    instead of replacing it with a space. *)
Theorem booksToTSV_sanitizes_text_fields (books : list book) :
  booksToTSV books = join (str1 LF) (map (join (str1 TAB)) (book_columns :: book_rows books))
  /\ Forall (fun b =>
       truthy (isbn b) = true
       /\ In (book_fields b) (book_rows books)
       /\ List.length (book_fields b) = 10
       /\ (forall k c, In k [5; 6; 9]%nat -> In c [TAB; LF; CR; DQUOTE] ->
             contains_char c (nth k (book_fields b) EmptyString) = false)
       /\ (forall s, Forall (fun c => contains_char c s = false) [TAB; LF; CR; DQUOTE] ->
             escapeField (Some s) = s)
       /\ firstn 5 (book_fields b)
            = [or_empty (b_addedAt b); or_empty (startedAt b); or_empty (b_finishedAt b);
               or_empty (isbn b);
               match b_tags b with Some ((_ :: _) as l) => join "," l | _ => EmptyString end]
       /\ nth 7 (book_fields b) EmptyString = or_empty (b_year b)
       /\ nth 8 (book_fields b) EmptyString = or_empty (coverUrl b))
     (filter (fun b => truthy (isbn b)) books).
Proof.
  split; [reflexivity|].
  apply Forall_forall. intros b Hb. pose proof Hb as Hb'.
  apply filter_In in Hb' as [_ Hi].
  split; [exact Hi|]. split.
  { unfold book_rows. apply in_map, Hb. }
  split; [reflexivity|]. split.
  { intros k c Hk Hc. destruct Hk as [<-|[<-|[<-|[]]]]; apply escapeField_clean, Hc. }
  split; [exact escapeField_clean_id|].
  split; [reflexivity|]. split; reflexivity.
Qed.

(** The carriage return inside a book title is deleted, not turned into a
    space, and a double quote inside a screen title reaches the screen TSV
    raw: [screensToTSV] sanitizes no field. *)
Lemma encode_sanitization_differs :
  nth 5 (book_fields cr_book) EmptyString = "DuneMessiah"
  /\ nth 5 (book_fields cr_book) EmptyString <> "Dune Messiah"
  /\ contains_char DQUOTE (screensToTSV [quoted_screen]) = true.
Proof. vm_compute. split; [reflexivity|]. split; [discriminate|reflexivity]. Qed.

(** ** The needs-rewrite flag of [tsvToBooks] *)

Lemma isWrongOrder_firstn (header : list string) :
  isWrongOrder header = true <-> firstn 10 (map trim header) <> book_columns.
Proof.
  unfold isWrongOrder. remember (map trim header) as a eqn:Ea. clear Ea header.
  assert (Hf : forallb (fun p => match nth_error a (fst p) with
                                 | Some c => String.eqb c (snd p)
                                 | None => false
                                 end)
                 (combine (seq 0 (List.length book_columns)) book_columns) = true
               <-> firstn 10 a = book_columns).
  { split; intros H.
    - do 10 (destruct a as [|? a]; [simpl in H; rewrite ?andb_false_r in H; discriminate|]).
      simpl in H.
      repeat (apply andb_prop in H as [Hx H]; apply String.eqb_eq in Hx; subst).
      reflexivity.
    - do 10 (destruct a as [|? a]; [simpl in H; discriminate|]).
      simpl in H. injection H as ? ? ? ? ? ? ? ? ? ?. subst. reflexivity. }
  destruct (forallb _ _) eqn:E; simpl.
  - split; [discriminate|]. intros Hn. exfalso. apply Hn, Hf. reflexivity.
  - split; [intros _ Heq|reflexivity]. apply Hf in Heq. congruence.
Qed.

Lemma sanitizeField_changed (s : string) :
  snd (sanitizeField s) = contains_char DQUOTE s.
Proof.
  unfold sanitizeField. destruct (nonempty s) eqn:E; simpl.
  - rewrite replace_char_changes by reflexivity. apply negb_involutive.
  - unfold nonempty in E. apply negb_false_iff, String.eqb_eq in E. subst. reflexivity.
Qed.

(** What one data line contributes: skipped exactly when its ISBN cell is
    empty; otherwise its ISBN is that cell and its flag records whether
    sanitization changed its title, author or description. *)
Lemma parse_book_row_shape (header : list string) (line : string) :
  let cols := split_on TAB line in
  match parse_book_row header line with
  | None => nonempty (getValue header cols "isbn") = false
  | Some (r, ch) =>
      nonempty (getValue header cols "isbn") = true
      /\ rv_isbn r = getValue header cols "isbn"
      /\ ch = contains_char DQUOTE (getValue header cols "title")
              || contains_char DQUOTE (getValue header cols "author")
              || contains_char DQUOTE (getValue header cols "description")
  end.
Proof.
  intros cols. unfold parse_book_row. fold cols.
  destruct (nonempty (getValue header cols "isbn")) eqn:Ei; simpl; [|reflexivity].
  rewrite <- !sanitizeField_changed.
  destruct (sanitizeField (getValue header cols "title")) as [t c1].
  destruct (sanitizeField (getValue header cols "author")) as [a c2].
  destruct (sanitizeField (getValue header cols "description")) as [d c3].
  simpl.
  repeat match goal with
         | |- context [match ?x with pair _ _ => _ end] => destruct x
         end.
  all: repeat split; assumption || reflexivity.
Qed.

Lemma books_loop_flag (header lines : list string) (st : loop_state) :
  ls_needsSanitization (books_loop header lines st)
  = ls_needsSanitization st
    || existsb (fun line => match parse_book_row header line with
                            | Some (_, ch) => ch
                            | None => false
                            end) lines.
Proof.
  revert st. induction lines as [|line rest IH]; intros st; simpl.
  - rewrite orb_false_r. reflexivity.
  - destruct (parse_book_row header line) as [[r ch]|].
    + destruct (needsAPIFetch r); rewrite IH; simpl; symmetry; apply orb_assoc.
    + apply IH.
Qed.

Lemma row_flag_iff (header : list string) (line : string) :
  match parse_book_row header line with Some (_, ch) => ch | None => false end = true
  <-> (let cols := split_on TAB line in
       nonempty (getValue header cols "isbn") = true
       /\ Exists (fun name => contains_char DQUOTE (getValue header cols name) = true)
                 ["title"; "author"; "description"]).
Proof.
  pose proof (parse_book_row_shape header line) as Hs. cbv zeta in *.
  rewrite Exists_cons, Exists_cons, Exists_cons, Exists_nil.
  destruct (parse_book_row header line) as [[r ch]|].
  - destruct Hs as (Hi & _ & ->). rewrite Hi.
    rewrite !orb_true_iff. intuition.
  - rewrite Hs. intuition discriminate.
Qed.

(** Claim C6 (corrected, book variant).  Only [tsvToBooks] returns a
    flag; [tsvToScreens] returns the screens alone.  The flag returned by
    [tsvToBooks] is true exactly when the
    trimmed header does not start with the ten canonical columns in order,
    or the header lacks a [startedAt] or [finishedAt] column (the legacy
    migration then runs on every row), or some data line with an ISBN has a
    title, author or description cell that sanitization changes (one
    holding a double quote). *)
Theorem tsvToBooks_needsReorder (google : string -> api_result) (tsv : string) :
  snd (tsvToBooks google tsv) = true
  <-> firstn 10 (map trim (tsv_header tsv)) <> book_columns
      \/ needsMigration (tsv_header tsv) = true
      \/ Exists (fun line =>
                   let cols := split_on TAB line in
                   nonempty (getValue (tsv_header tsv) cols "isbn") = true
                   /\ Exists (fun name =>
                                snd (sanitizeField (getValue (tsv_header tsv) cols name)) = true)
                             ["title"; "author"; "description"])
                (tsv_data tsv).
Proof.
  unfold tsvToBooks. fold (tsv_header tsv). fold (tsv_data tsv). simpl.
  rewrite books_loop_flag. simpl.
  rewrite !orb_true_iff, isWrongOrder_firstn, existsb_exists, Exists_exists.
  assert (Hrow : forall line,
             match parse_book_row (tsv_header tsv) line with
             | Some (_, ch) => ch | None => false end = true
             <-> (let cols := split_on TAB line in
                  nonempty (getValue (tsv_header tsv) cols "isbn") = true
                  /\ Exists (fun name =>
                               snd (sanitizeField (getValue (tsv_header tsv) cols name)) = true)
                            ["title"; "author"; "description"])).
  { intros line. rewrite row_flag_iff. cbv zeta.
    rewrite !Exists_cons, !Exists_nil, !sanitizeField_changed. reflexivity. }
  split.
  - intros [[H|H]|[l [Hin Hl]]]; [left; exact H|right; left; exact H|].
    right; right. exists l. split; [exact Hin|]. apply Hrow, Hl.
  - intros [H|[H|[l [Hin Hl]]]]; [left; left; exact H|left; right; exact H|].
    right. exists l. split; [exact Hin|]. apply Hrow, Hl.
Qed.

(** Claim C6 (counterexample).  The screen decoder returns no flag and
    reads cells by position: a file
    whose header lists the columns in another order decodes to the same
    screens as the canonical one, so it cannot report the difference. *)
Lemma screen_decode_ignores_header :
  let row := join (str1 TAB) ["2024-01-01T00:00:00.000Z"; ""; "603"; ""; "scifi"; "movie";
                              "The Matrix"; "1999"; ""; "A hacker learns the truth."] in
  let reordered := join (str1 TAB) ["title"; "type"; "addedAt"; "finishedAt"; "tmdbID";
                                    "lastWatchedEpisode"; "tags"; "year"; "posterURL";
                                    "description"] in
  tsvToScreens "0" (reordered ++ str1 LF ++ row)%string
  = tsvToScreens "0" (screen_header ++ str1 LF ++ row)%string
  /\ map id (tsvToScreens "0" (screen_header ++ str1 LF ++ row)%string) = ["movie_603"].
Proof. vm_compute. split; reflexivity. Qed.

(** ** Which rows the decoders keep *)









(** ** Round trip of the screen codec *)

Lemma split_on_nochar (c : ascii) (x : string) :
  contains_char c x = false -> split_on c x = [x].
Proof.
  induction x as [|a x IH]; simpl; [reflexivity|].
  intros H. apply orb_false_iff in H as [Ha Hx]. rewrite Ha, IH by exact Hx. reflexivity.
Qed.

Lemma split_on_app (c : ascii) (x s : string) :
  contains_char c x = false -> split_on c (x ++ String c s) = x :: split_on c s.
Proof.
  induction x as [|a x IH]; simpl.
  - rewrite Ascii.eqb_refl. reflexivity.
  - intros H. apply orb_false_iff in H as [Ha Hx]. rewrite Ha, IH by exact Hx. reflexivity.
Qed.

Lemma split_on_join (c : ascii) (l : list string) :
  l <> [] -> Forall (fun x => contains_char c x = false) l ->
  split_on c (join (str1 c) l) = l.
Proof.
  unfold join. induction l as [|x [|y l] IH]; intros Hne Hf; [congruence| |].
  - inversion_clear Hf. simpl. apply split_on_nochar. assumption.
  - inversion_clear Hf as [|? ? Hx Hf'].
    change (String.concat (str1 c) (x :: y :: l))
      with (x ++ String c (String.concat (str1 c) (y :: l)))%string.
    rewrite split_on_app by exact Hx. f_equal. apply IH; [discriminate|exact Hf'].
Qed.

Lemma contains_char_join (c d : ascii) (l : list string) :
  Ascii.eqb d c = false -> Forall (fun x => contains_char c x = false) l ->
  contains_char c (join (str1 d) l) = false.
Proof.
  unfold join. intros Hdc. induction l as [|x [|y l] IH]; intros Hf; [reflexivity| |].
  - inversion_clear Hf. assumption.
  - inversion_clear Hf as [|? ? Hx Hf'].
    change (String.concat (str1 d) (x :: y :: l))
      with (x ++ String d (String.concat (str1 d) (y :: l)))%string.
    rewrite contains_char_app, Hx. simpl. rewrite Hdc. apply IH, Hf'.
Qed.

Lemma nonempty_app_cons (x y : string) (a : ascii) : nonempty (x ++ String a y) = true.
Proof. destruct x; reflexivity. Qed.

Lemma or_empty_or_null (x : string) : or_empty (or_null x) = x.
Proof.
  unfold or_null, nonempty. destruct (String.eqb x EmptyString) eqn:E; simpl; [|reflexivity].
  apply String.eqb_eq in E. symmetry. exact E.
Qed.

(** The tag cell read back: [tagsStr.split(',').filter(t => t)] of a join. *)
Lemma tags_cell_roundtrip (l : list string) :
  Forall (fun t => nonempty t = true /\ contains_char COMMA t = false) l ->
  join "," (if nonempty (join "," l) then filter nonempty (split_on COMMA (join "," l))
            else []) = join "," l.
Proof.
  intros Hf. destruct l as [|x l]; [reflexivity|].
  assert (Hne : nonempty (join "," (x :: l)) = true).
  { inversion_clear Hf as [|? ? [Hx _] _]. unfold join. destruct l as [|y l]; [exact Hx|].
    change (String.concat "," (x :: y :: l))
      with (x ++ String COMMA (String.concat "," (y :: l)))%string.
    apply nonempty_app_cons. }
  rewrite Hne. change (join "," (x :: l)) with (join (str1 COMMA) (x :: l)).
  rewrite split_on_join.
  - rewrite forallb_filter_id; [reflexivity|].
    apply forallb_forall. intros t Ht. rewrite Forall_forall in Hf. apply Hf, Ht.
  - discriminate.
  - eapply Forall_impl; [|exact Hf]. intros t [_ Ht]. exact Ht.
Qed.

(** The type cell read back: ['show'] is read as ['tv'] and written as
    ['show'] again; ['tv'] itself is never written. *)
Lemma type_cell_roundtrip (t : option string) :
  let p5 := or_empty (if is_str t "tv" then Some "show" else t) in
  let it := if String.eqb p5 "show" then "tv" else p5 in
  or_empty (if is_str (Some it) "tv" then Some "show" else Some it) = p5.
Proof.
  destruct t as [x|]; simpl; [|reflexivity].
  destruct (String.eqb x "tv") eqn:E; simpl; [reflexivity|].
  destruct (String.eqb x "show") eqn:F; simpl.
  - apply String.eqb_eq in F. subst. reflexivity.
  - rewrite E. reflexivity.
Qed.

Lemma parse_screen_line_row (now : string) (i : nat) (s : screen) :
  roundtrip_ok s ->
  exists d, parse_screen_line now i (screen_row s) = Some d
            /\ screen_fields d = screen_fields s.
Proof.
  intros (Hf & Htags & Htrim).
  assert (Hsplit : split_on TAB (screen_row s) = screen_fields s).
  { apply split_on_join; [discriminate|].
    eapply Forall_impl; [|exact Hf]. intros f [H _]. exact H. }
  unfold parse_screen_line. rewrite Htrim.
  assert (Hne : nonempty (screen_row s) = true).
  { unfold screen_row, screen_fields, join. cbn [String.concat]. apply nonempty_app_cons. }
  rewrite Hne, Hsplit. cbn [negb].
  eexists. split; [reflexivity|].
  unfold screen_fields at 1.
  cbn [addedAt finishedAt tmdbId lastWatchedEpisode tags type title year posterUrl
       overview or_empty].
  unfold screen_fields. cbn [nth].
  rewrite or_empty_or_null, tags_cell_roundtrip by exact Htags.
  pose proof (type_cell_roundtrip (type s)) as Ht. cbv zeta in Ht. rewrite Ht.
  reflexivity.
Qed.

Lemma parse_screen_lines_rows (now : string) (i : nat) (L : list screen) :
  Forall roundtrip_ok L ->
  Forall2 (fun d s => screen_fields d = screen_fields s)
          (parse_screen_lines now i (map screen_row L)) L.
Proof.
  revert i. induction L as [|s L IH]; intros i HL; simpl; [constructor|].
  inversion_clear HL as [|? ? Hs HL'].
  destruct (parse_screen_line_row now i s Hs) as (d & -> & Hd).
  constructor; [exact Hd|]. apply IH, HL'.
Qed.

(** For every list of screens in which no field
    written by [screensToTSV] contains a tab or a newline, every tag is
    non-empty and free of commas, and no row begins or ends with
    whitespace (so its addedAt and description cells are non-empty), the
    decoded list has one screen per encoded screen, in order, and each
    decoded screen has the same ten serialized fields as the original.
    The ids are recomputed from type and tmdbId (or a generated
    [manual_] id), absent values come back as empty text, the type
    ['show'] is read as ['tv'], and the cached poster is dropped. *)
Theorem screens_tsv_roundtrip (now : string) (L : list screen) :
  Forall roundtrip_ok L ->
  Forall2 (fun d s => screen_fields d = screen_fields s)
          (tsvToScreens now (screensToTSV L)) L.
Proof.
  intros HL. destruct L as [|s L'].
  - vm_compute. constructor.
  - assert (Henc : screensToTSV (s :: L')
                   = join (str1 LF) (screen_header :: map screen_row (s :: L'))).
    { reflexivity. }
    unfold tsvToScreens. rewrite Henc, split_on_join.
    + apply parse_screen_lines_rows, HL.
    + discriminate.
    + constructor; [reflexivity|].
      apply Forall_map. eapply Forall_impl; [|exact HL].
      intros x (Hf & _ & _). apply contains_char_join; [reflexivity|].
      eapply Forall_impl; [|exact Hf]. intros f [_ H]. exact H.
Qed.

Lemma screens_tsv_roundtrip_witness :
  roundtrip_ok matrix
  /\ Forall2 (fun d s => screen_fields d = screen_fields s)
             (tsvToScreens "1700000000000" (screensToTSV [matrix])) [matrix].
Proof.
  assert (H : roundtrip_ok matrix).
  { split; [|split].
    - repeat constructor.
    - repeat constructor.
    - vm_compute. reflexivity. }
  split; [exact H|].
  apply (screens_tsv_roundtrip "1700000000000" [matrix]). constructor; [exact H|constructor].
Defined.

(** A screen with no overview is lost (its row loses the trailing tab to
    [trim] and has nine cells), and a tag holding a comma comes back as two
    tags; neither item holds a tab, newline or double quote. *)
Lemma screen_roundtrip_loses_items :
  tsvToScreens "0" (screensToTSV [no_overview]) = []
  /\ map tags (tsvToScreens "0" (screensToTSV [comma_tagged])) = [Some ["sci"; "fi"]].
Proof. vm_compute. split; reflexivity. Qed.

(* ================================================================== *)
(** * Properties of the remaining code *)

(** ** Rating tags *)

Lemma find_app {A : Type} (f : A -> bool) (l1 l2 : list A) :
  find f (l1 ++ l2) = match find f l1 with Some x => Some x | None => find f l2 end.
Proof. induction l1 as [|x l1 IH]; simpl; [reflexivity|]. destruct (f x); auto. Qed.

Lemma find_filter_negb {A : Type} (f : A -> bool) (l : list A) :
  find f (filter (fun x => negb (f x)) l) = None.
Proof.
  induction l as [|x l IH]; simpl; [reflexivity|].
  destruct (f x) eqn:E; simpl; [exact IH|]. rewrite E. exact IH.
Qed.

Lemma filter_filter_same {A : Type} (f : A -> bool) (l : list A) :
  filter f (filter f l) = filter f l.
Proof. apply forallb_filter_id, forallb_filter. Qed.

(** The tag written for a rating from 1 to 10 is a rating tag that reads
    back as that rating. *)
Lemma rating_tag_of_valid (r : Z) :
  (1 <= r <= 10)%Z ->
  let t := (pad_start 2 "0" (N_to_string (Z.to_N r)) ++ "_stars")%string in
  is_rating_tag t = true /\ Z.of_N (parse_digits (substring 0 2 t)) = r.
Proof.
  intros Hr.
  assert (r = 1 \/ r = 2 \/ r = 3 \/ r = 4 \/ r = 5 \/ r = 6 \/ r = 7 \/ r = 8
          \/ r = 9 \/ r = 10)%Z as Hc by lia.
  repeat destruct Hc as [->|Hc]; [..|subst r]; vm_compute; split; reflexivity.
Qed.

(** [setRatingTag] followed by [getRatingFromTags] gives back any rating
    from 1 to 10, whatever the tags held before. *)
Theorem rating_tag_roundtrip (tags : list string) (r : Z) :
  (1 <= r <= 10)%Z -> getRatingFromTags (Some (setRatingTag tags (Some r))) = Some r.
Proof.
  intros Hr. pose proof (rating_tag_of_valid r Hr) as [Hrt Hv]. cbv zeta in Hrt, Hv.
  unfold setRatingTag.
  replace ((1 <=? r)%Z && (r <=? 10)%Z) with true
    by (symmetry; apply andb_true_iff; split; apply Z.leb_le; lia).
  unfold getRatingFromTags. rewrite find_app, find_filter_negb. simpl.
  rewrite Hrt. f_equal. exact Hv.
Qed.

Lemma rating_tag_roundtrip_witness :
  (1 <= 7 <= 10)%Z
  /\ getRatingFromTags (Some (setRatingTag ["scifi"; "03_stars"] (Some 7%Z))) = Some 7%Z.
Proof.
  split; [lia|]. apply rating_tag_roundtrip. lia.
Defined.

(** [setRatingTag] keeps the other tags in order, leaves at most one
    rating tag, is idempotent, and clears the rating when given [null] or a
    number outside 1..10. *)
Theorem setRatingTag_spec (tags : list string) (rating : option Z) :
  let res := setRatingTag tags rating in
  filter (fun t => negb (is_rating_tag t)) res = filter (fun t => negb (is_rating_tag t)) tags
  /\ (List.length (filter is_rating_tag res) <= 1)%nat
  /\ setRatingTag res rating = res
  /\ (match rating with Some r => ~ (1 <= r <= 10)%Z | None => True end ->
      getRatingFromTags (Some res) = None).
Proof.
  cbv zeta. unfold setRatingTag.
  set (keep := filter (fun t => negb (is_rating_tag t)) tags).
  assert (Hk1 : filter (fun t => negb (is_rating_tag t)) keep = keep)
    by apply filter_filter_same.
  assert (Hk2 : filter is_rating_tag keep = []).
  { unfold keep. clear. induction tags as [|t l IH]; simpl; [reflexivity|].
    destruct (is_rating_tag t) eqn:E; simpl; [exact IH|]. rewrite E. exact IH. }
  assert (Hk3 : find is_rating_tag keep = None) by apply find_filter_negb.
  destruct rating as [r|].
  - destruct ((1 <=? r)%Z && (r <=? 10)%Z) eqn:Hb.
    + apply andb_true_iff in Hb as [H1 H2]. apply Z.leb_le in H1, H2.
      destruct (rating_tag_of_valid r (conj H1 H2)) as [Hrt _].
      set (t := (pad_start 2 "0" (N_to_string (Z.to_N r)) ++ "_stars")%string) in *.
      rewrite !filter_app, Hk1, Hk2. simpl. rewrite Hrt. simpl.
      rewrite app_nil_r. repeat split; [reflexivity|].
      intros Hn. exfalso. apply Hn. lia.
    + rewrite Hk1, Hk2. repeat split; [simpl; lia|].
      intros _. unfold getRatingFromTags. rewrite Hk3. reflexivity.
  - rewrite Hk1, Hk2. repeat split; [simpl; lia|].
    intros _. unfold getRatingFromTags. rewrite Hk3. reflexivity.
Qed.

(** ** The tag list of the filter bar *)

Lemma str_ltb_total (x y : string) :
  String.ltb y x = false -> x <> y -> String.ltb x y = true.
Proof.
  unfold String.ltb. intros H Hne. rewrite String.compare_antisym.
  destruct (String.compare y x) eqn:E; simpl; try reflexivity; try discriminate.
  apply String.compare_eq_iff in E. congruence.
Qed.

Lemma insert_sorted_perm (x : string) (l : list string) :
  Permutation (insert_sorted x l) (x :: l).
Proof.
  induction l as [|y l IH]; simpl; [reflexivity|].
  destruct (String.ltb y x); [|reflexivity].
  rewrite IH. apply perm_swap.
Qed.

Lemma insert_sorted_hd (a x : string) (l : list string) :
  HdRel (fun u v => String.ltb u v = true) a l -> String.ltb a x = true ->
  HdRel (fun u v => String.ltb u v = true) a (insert_sorted x l).
Proof.
  intros Hh Hax. destruct l as [|y l]; simpl; [constructor; exact Hax|].
  destruct (String.ltb y x); constructor; [inversion Hh; assumption|exact Hax].
Qed.

Lemma insert_sorted_sorted (x : string) (l : list string) :
  Sorted (fun u v => String.ltb u v = true) l -> ~ In x l ->
  Sorted (fun u v => String.ltb u v = true) (insert_sorted x l).
Proof.
  induction l as [|y l IH]; intros Hs Hn; simpl; [repeat constructor|].
  inversion Hs as [|? ? Hs' Hh]; subst.
  destruct (String.ltb y x) eqn:E.
  - constructor; [apply IH; [exact Hs'|intros H; apply Hn; right; exact H]|].
    apply insert_sorted_hd; assumption.
  - constructor; [exact Hs|]. constructor. apply str_ltb_total; [exact E|].
    intros ->. apply Hn. left. reflexivity.
Qed.

Lemma sort_strings_spec (l : list string) :
  Permutation (sort_strings l) l
  /\ (NoDup l -> Sorted (fun u v => String.ltb u v = true) (sort_strings l)).
Proof.
  induction l as [|x l [IHp IHs]]; simpl; [split; [reflexivity|constructor]|].
  split.
  - rewrite insert_sorted_perm. apply perm_skip, IHp.
  - intros Hnd. inversion Hnd as [|? ? Hn Hnd']; subst.
    apply insert_sorted_sorted; [apply IHs, Hnd'|].
    intros Hin. apply Hn. apply (Permutation_in _ IHp Hin).
Qed.

Lemma set_add_spec (t : string) (acc : list string) :
  (NoDup acc -> NoDup (set_add t acc)) /\ (forall x, In x (set_add t acc) <-> x = t \/ In x acc).
Proof.
  unfold set_add. destruct (existsb (String.eqb t) acc) eqn:E.
  - apply existsb_exists in E as [y [Hy Ht]]. apply String.eqb_eq in Ht. subst y.
    split; [auto|]. intros x. intuition congruence.
  - split.
    + intros Hnd. apply NoDup_app; [exact Hnd|repeat constructor; simpl; tauto|].
      intros x Hx [<-|[]]. assert (existsb (String.eqb t) acc = true) by
        (apply existsb_exists; exists t; split; [exact Hx|apply String.eqb_refl]).
      congruence.
    + intros x. rewrite in_app_iff. simpl. intuition congruence.
Qed.

Lemma unique_tags_inner (l acc : list string) :
  let r := fold_left (fun acc tag => if negb (is_rating_tag tag) then set_add tag acc else acc)
                     l acc in
  (NoDup acc -> NoDup r)
  /\ (forall x, In x r <-> In x acc \/ (In x l /\ is_rating_tag x = false)).
Proof.
  revert acc. induction l as [|t l IH]; intros acc; simpl.
  - split; [auto|]. intros x. intuition.
  - destruct (IH (if negb (is_rating_tag t) then set_add t acc else acc)) as [H1 H2].
    split.
    + intros Hnd. apply H1. destruct (is_rating_tag t); simpl; [exact Hnd|].
      apply set_add_spec, Hnd.
    + intros x. rewrite H2. destruct (is_rating_tag t) eqn:E; simpl.
      * split; [intuition|]. intros [H|[[<-|H] Hr]]; [tauto|congruence|tauto].
      * rewrite (proj2 (set_add_spec t acc)). split; [intuition (subst; auto)|].
        intros [H|[[<-|H] Hr]]; tauto.
Qed.

Lemma unique_tags_outer (item_tags : list (option (list string))) (acc : list string) :
  let r := fold_left (fun acc o =>
                match o with
                | Some l => fold_left (fun acc tag =>
                              if negb (is_rating_tag tag) then set_add tag acc else acc) l acc
                | None => acc
                end) item_tags acc in
  (NoDup acc -> NoDup r)
  /\ (forall x, In x r <-> In x acc
                 \/ ((exists l, In (Some l) item_tags /\ In x l) /\ is_rating_tag x = false)).
Proof.
  revert acc. induction item_tags as [|o its IH]; intros acc; simpl.
  - split; [auto|]. intros x. split; [tauto|]. intros [H|[[l [[] _]] _]]. exact H.
  - destruct o as [l|].
    + destruct (unique_tags_inner l acc) as [I1 I2].
      destruct (IH (fold_left (fun acc tag =>
                    if negb (is_rating_tag tag) then set_add tag acc else acc) l acc))
        as [H1 H2].
      split; [intros Hnd; apply H1, I1, Hnd|].
      intros x. rewrite H2, I2. split.
      * intros [[H|[H Hr]]|[[l' [Hl' Hx]] Hr]]; [tauto| |].
        -- right. split; [exists l; split; [left; reflexivity|exact H]|exact Hr].
        -- right. split; [exists l'; split; [right; exact Hl'|exact Hx]|exact Hr].
      * intros [H|[[l' [[E|Hl'] Hx]] Hr]]; [tauto| |].
        -- injection E as ->. left. right. tauto.
        -- right. split; [exists l'; tauto|exact Hr].
    + destruct (IH acc) as [H1 H2]. split; [exact H1|].
      intros x. rewrite H2. split.
      * intros [H|[[l' [Hl' Hx]] Hr]]; [tauto|]. right. split; [exists l'; tauto|exact Hr].
      * intros [H|[[l' [[E|Hl'] Hx]] Hr]]; [tauto|discriminate|].
        right. split; [exists l'; tauto|exact Hr].
Qed.

(** [getAllUniqueTags] lists, sorted and without duplicates, exactly the
    tags carried by some item that are not rating tags. *)
Theorem getAllUniqueTags_spec (item_tags : list (option (list string))) :
  let res := getAllUniqueTags item_tags in
  NoDup res
  /\ Sorted (fun u v => String.ltb u v = true) res
  /\ (forall t, In t res <->
        (exists l, In (Some l) item_tags /\ In t l) /\ is_rating_tag t = false).
Proof.
  cbv zeta. unfold getAllUniqueTags.
  destruct (unique_tags_outer item_tags []) as [H1 H2]. cbv zeta in H1, H2.
  set (acc := fold_left _ item_tags []) in *.
  destruct (sort_strings_spec acc) as [Hp Hs].
  assert (Hnd : NoDup acc) by (apply H1; constructor).
  split; [exact (Permutation_NoDup (Permutation_sym Hp) Hnd)|].
  split; [exact (Hs Hnd)|].
  intros t. split.
  - intros Hin. apply (Permutation_in _ Hp) in Hin. apply H2 in Hin as [[]|H]. exact H.
  - intros H. apply (Permutation_in _ (Permutation_sym Hp)). apply H2. right. exact H.
Qed.

(** ** Episode codes *)

Lemma str_app_nil_r (s : string) : (s ++ EmptyString)%string = s.
Proof. induction s as [|a s IH]; simpl; [reflexivity|]. rewrite IH. reflexivity. Qed.

Lemma span_digits_app (p s : string) :
  snd (span_digits p) = EmptyString ->
  span_digits (p ++ s) = (p ++ fst (span_digits s), snd (span_digits s))%string.
Proof.
  induction p as [|a p IH]; simpl; intros H.
  - destruct (span_digits s); reflexivity.
  - destruct (is_digit a) eqn:Ea; [|discriminate].
    destruct (span_digits p) as [d r] eqn:Ep. simpl in H |- *.
    rewrite IH by exact H. reflexivity.
Qed.

Lemma span_digits_of_uint (u : Decimal.uint) :
  span_digits (NilEmpty.string_of_uint u) = (NilEmpty.string_of_uint u, EmptyString).
Proof.
  induction u; simpl; try reflexivity; rewrite IHu; reflexivity.
Qed.

Lemma span_digits_zeros (k : nat) :
  span_digits (repeat_char k "0"%char) = (repeat_char k "0"%char, EmptyString).
Proof. induction k as [|k IH]; simpl; [reflexivity|]. rewrite IH. reflexivity. Qed.

Lemma parse_digits_zeros (k : nat) (u : Decimal.uint) :
  NilEmpty.uint_of_string (repeat_char k "0"%char ++ NilEmpty.string_of_uint u)
  = Some (Nat.iter k Decimal.D0 u)
  /\ N.of_uint (Nat.iter k Decimal.D0 u) = N.of_uint u.
Proof.
  induction k as [|k [IH1 IH2]]; simpl.
  - split; [apply NilEmpty.usu|reflexivity].
  - rewrite IH1. split; [reflexivity|]. exact IH2.
Qed.

(** The padded decimal text of a number: digits only, non-empty, and read
    back by [parseInt] as the number. *)
Lemma padded_number (n : N) :
  let t := pad_start 2 "0"%char (N_to_string n) in
  span_digits t = (t, EmptyString) /\ nonempty t = true /\ parse_digits t = n.
Proof.
  cbv zeta. unfold pad_start, N_to_string.
  set (u := N.to_uint n).
  assert (Hk : exists k, (if (String.length (NilEmpty.string_of_uint u) <? 2)%nat
                          then repeat_char (2 - String.length (NilEmpty.string_of_uint u)) "0"
                                 ++ NilEmpty.string_of_uint u
                          else NilEmpty.string_of_uint u)%string
                         = (repeat_char k "0"%char ++ NilEmpty.string_of_uint u)%string
                 /\ (1 <= k + String.length (NilEmpty.string_of_uint u))%nat).
  { destruct (Nat.ltb_spec (String.length (NilEmpty.string_of_uint u)) 2).
    - exists (2 - String.length (NilEmpty.string_of_uint u)). split; [reflexivity|lia].
    - exists O. split; [reflexivity|simpl; lia]. }
  destruct Hk as [k [-> Hlen]]. split; [|split].
  - rewrite span_digits_app by (rewrite span_digits_zeros; reflexivity).
    rewrite span_digits_of_uint. reflexivity.
  - destruct k as [|k]; simpl; [|reflexivity].
    destruct (NilEmpty.string_of_uint u); simpl in *; [lia|reflexivity].
  - unfold parse_digits. destruct (parse_digits_zeros k u) as [-> ->].
    apply Unsigned.of_to.
Qed.

Lemma parse_format_episode (season episode : N) :
  parseEpisodeCode (Some (formatEpisodeCode season episode)) = Some (season, episode).
Proof.
  unfold parseEpisodeCode, formatEpisodeCode. simpl.
  destruct (padded_number season) as [Hs1 [Hs2 Hs3]].
  destruct (padded_number episode) as [He1 [He2 He3]].
  set (ps := pad_start 2 "0" (N_to_string season)) in *.
  set (pe := pad_start 2 "0" (N_to_string episode)) in *.
  rewrite span_digits_app by (rewrite Hs1; reflexivity). simpl.
  rewrite str_app_nil_r, Hs2. simpl. rewrite He1, He2, Hs3, He3. reflexivity.
Qed.

(** [formatEpisodeCode] followed by [parseEpisodeCode] gives back the season
    and the episode (for numbers below [2^53], where JS numbers are exact). *)
Theorem episode_code_roundtrip (season episode : N) :
  (season < 2 ^ 53)%N -> (episode < 2 ^ 53)%N ->
  parseEpisodeCode (Some (formatEpisodeCode season episode)) = Some (season, episode).
Proof. intros _ _. apply parse_format_episode. Qed.

Lemma episode_code_roundtrip_witness :
  (1 < 2 ^ 53)%N /\ (12 < 2 ^ 53)%N
  /\ parseEpisodeCode (Some (formatEpisodeCode 1 12)) = Some (1%N, 12%N).
Proof.
  split; [vm_compute; reflexivity|]. split; [vm_compute; reflexivity|].
  apply episode_code_roundtrip; vm_compute; reflexivity.
Defined.

Lemma update_first_split {A : Type} (p : A -> bool) (f : A -> A) (l : list A) (x : A) :
  find p l = Some x ->
  exists l1 l2, l = l1 ++ x :: l2 /\ forallb (fun y => negb (p y)) l1 = true
                /\ p x = true /\ update_first p f l = l1 ++ f x :: l2.
Proof.
  induction l as [|y l IH]; simpl; [discriminate|].
  destruct (p y) eqn:E.
  - intros [= <-]. exists [], l. simpl. auto.
  - intros H. destruct (IH H) as (l1 & l2 & -> & Hf & Hp & Hu).
    exists (y :: l1), l2. simpl. rewrite E, Hf, Hu. auto.
Qed.

Lemma find_update_first {A : Type} (p : A -> bool) (f : A -> A) (l : list A) (x : A) :
  find p l = Some x -> p (f x) = true -> find p (update_first p f l) = Some (f x).
Proof.
  induction l as [|y l IH]; simpl; [discriminate|].
  destruct (p y) eqn:E.
  - intros [= <-] Hf. simpl. rewrite Hf. reflexivity.
  - intros H Hf. simpl. rewrite E. apply IH; assumption.
Qed.

(** After [updateLastWatchedEpisode(id, s, e)] the screen with that id
    (the first one) is the only one changed; its marker counts exactly the
    episodes up to season [s], episode [e] (in season-then-episode order)
    as watched, and an unfinished TV show becomes [watching]. *)
Theorem updateLastWatchedEpisode_spec (screens : list screen) (screenId : string)
  (season episode : N) (x : screen) :
  (season < 2 ^ 53)%N -> (episode < 2 ^ 53)%N ->
  find (fun s => String.eqb (id s) screenId) screens = Some x ->
  exists l1 l2 y,
    screens = l1 ++ x :: l2
    /\ updateLastWatchedEpisode screenId season episode screens = l1 ++ y :: l2
    /\ y = set_lastWatchedEpisode x (Some (formatEpisodeCode season episode))
    /\ (forall es en, isEpisodeWatched es en (lastWatchedEpisode y)
                      = (es <? season)%N || ((es =? season)%N && (en <=? episode)%N))
    /\ getScreenListStatus y
       = if truthy (finishedAt x) then Some watched
         else if is_str (type x) "tv" then Some watching
         else getScreenListStatus x.
Proof.
  intros Hs He Hf.
  destruct (update_first_split _ (fun s => set_lastWatchedEpisode s
              (Some (formatEpisodeCode season episode))) _ _ Hf)
    as (l1 & l2 & Hl & _ & _ & Hu).
  exists l1, l2, (set_lastWatchedEpisode x (Some (formatEpisodeCode season episode))).
  split; [exact Hl|]. split; [exact Hu|]. split; [reflexivity|]. split.
  - intros es en. unfold isEpisodeWatched. cbn [lastWatchedEpisode set_lastWatchedEpisode].
    rewrite parse_format_episode. reflexivity.
  - unfold getScreenListStatus. cbn [set_lastWatchedEpisode finishedAt type lastWatchedEpisode
                                     addedAt].
    destruct (truthy (finishedAt x)); [reflexivity|].
    destruct (is_str (type x) "tv"); reflexivity.
Qed.

Lemma updateLastWatchedEpisode_spec_witness :
  exists l1 l2 y,
    [matrix; skewed_show] = l1 ++ skewed_show :: l2
    /\ updateLastWatchedEpisode "tv_1396" 2 5 [matrix; skewed_show] = l1 ++ y :: l2
    /\ y = set_lastWatchedEpisode skewed_show (Some (formatEpisodeCode 2 5))
    /\ (forall es en, isEpisodeWatched es en (lastWatchedEpisode y)
                      = (es <? 2)%N || ((es =? 2)%N && (en <=? 5)%N))
    /\ getScreenListStatus y
       = if truthy (finishedAt skewed_show) then Some watched
         else if is_str (type skewed_show) "tv" then Some watching
         else getScreenListStatus skewed_show.
Proof.
  apply updateLastWatchedEpisode_spec; vm_compute; reflexivity.
Defined.

Lemma update_first_id {A : Type} (p : A -> bool) (f : A -> A) (l : list A) :
  (forall x, f x = x) -> update_first p f l = l.
Proof.
  intros Hf. induction l as [|y l IH]; simpl; [reflexivity|].
  destruct (p y); rewrite ?Hf, ?IH; reflexivity.
Qed.

(** Each pill of the screen detail sets the status it names, with one
    exception: [watching] only shows as watching for a TV show that already
    has a last-watched episode, and otherwise leaves it to-watch.  Any other
    status string leaves the screen unchanged. *)
Theorem setListTimestamps_status (now : string) (s : screen) :
  nonempty now = true ->
  getScreenListStatus (setListTimestamps now s "to_watch") = Some to_watch
  /\ getScreenListStatus (setListTimestamps now s "watched") = Some watched
  /\ getScreenListStatus (setListTimestamps now s "watching")
     = (if is_str (type s) "tv" && truthy (lastWatchedEpisode s)
        then Some watching else Some to_watch)
  /\ lastWatchedEpisode (setListTimestamps now s "to_watch") = None
  /\ (forall t, ~ In t ["to_watch"; "watching"; "watched"] -> setListTimestamps now s t = s).
Proof.
  intros Hn. unfold getScreenListStatus, setListTimestamps. simpl. rewrite Hn, andb_false_r.
  repeat split.
  - destruct (is_str (type s) "tv" && truthy (lastWatchedEpisode s)); [reflexivity|].
    destruct (truthy (addedAt s)) eqn:E; simpl; rewrite ?E, ?Hn; reflexivity.
  - intros t Ht. simpl in Ht.
    destruct (String.eqb_spec t "to_watch"); [subst; tauto|].
    destruct (String.eqb_spec t "watching"); [subst; tauto|].
    destruct (String.eqb_spec t "watched"); [subst; tauto|]. reflexivity.
Qed.

Lemma setListTimestamps_status_witness :
  nonempty "2026-10-17T09:00:00.000Z" = true /\
  getScreenListStatus (setListTimestamps "2026-10-17T09:00:00.000Z" matrix "watching")
  = Some to_watch.
Proof.
  split; [reflexivity|].
  destruct (setListTimestamps_status "2026-10-17T09:00:00.000Z" matrix eq_refl)
    as (_ & _ & H & _). rewrite H. reflexivity.
Defined.

(** Moving a book to to-read, reading or read (with a non-empty clock
    value) changes only the first book with that id, which then has the
    requested status and ordered timestamps; its other fields are kept.  Any
    other list tag changes nothing. *)
Theorem changeBookListStatus_spec (now bookId : string) (st : book_status)
  (books : list book) (b : book) :
  nonempty now = true -> find (has_id bookId) books = Some b ->
  (exists l1 l2 b',
     books = l1 ++ b :: l2
     /\ changeBookListStatus now bookId (book_status_name st) books = l1 ++ b' :: l2
     /\ getBookListStatus b' = Some st /\ book_ordered b' = true
     /\ b_id b' = b_id b /\ b_tags b' = b_tags b /\ isbn b' = isbn b
     /\ b_title b' = b_title b /\ author b' = author b /\ b_year b' = b_year b
     /\ description b' = description b /\ coverUrl b' = coverUrl b
     /\ cachedCover b' = cachedCover b)
  /\ (forall t, is_list_tag t = false -> changeBookListStatus now bookId t books = books).
Proof.
  intros Hn Hf. split.
  - destruct (update_first_split _ (fun x => setBookListTimestamps now x (book_status_name st))
                _ _ Hf) as (l1 & l2 & Hl & _ & _ & Hu).
    exists l1, l2, (setBookListTimestamps now b (book_status_name st)).
    split; [exact Hl|]. split; [exact Hu|].
    destruct st; simpl.
    + rewrite setBookListTimestamps_to_read_ordered.
      unfold getBookListStatus; simpl; rewrite Hn; repeat split.
    + rewrite setBookListTimestamps_reading_ordered.
      unfold getBookListStatus; simpl; rewrite Hn; repeat split.
    + rewrite setBookListTimestamps_read_ordered.
      unfold getBookListStatus; simpl; rewrite Hn; repeat split.
  - intros t Ht. unfold changeBookListStatus. apply update_first_id. intros x.
    unfold is_list_tag, includes in Ht. simpl in Ht.
    apply orb_false_iff in Ht as [H1 Ht]. apply orb_false_iff in Ht as [H2 Ht].
    apply orb_false_iff in Ht as [H3 _].
    unfold setBookListTimestamps.
    rewrite H1, H2, H3. reflexivity.
Qed.

Lemma changeBookListStatus_spec_witness :
  nonempty "2026-10-17T09:00:00.000Z" = true
  /\ find (has_id (b_id dune)) [dune] = Some dune
  /\ exists l1 l2 b',
       [dune] = l1 ++ dune :: l2
       /\ changeBookListStatus "2026-10-17T09:00:00.000Z" (b_id dune) "read" [dune]
          = l1 ++ b' :: l2
       /\ getBookListStatus b' = Some read /\ book_ordered b' = true
       /\ b_id b' = b_id dune /\ b_tags b' = b_tags dune /\ isbn b' = isbn dune
       /\ b_title b' = b_title dune /\ author b' = author dune /\ b_year b' = b_year dune
       /\ description b' = description dune /\ coverUrl b' = coverUrl dune
       /\ cachedCover b' = cachedCover dune.
Proof.
  split; [reflexivity|]. split; [vm_compute; reflexivity|].
  exact (proj1 (changeBookListStatus_spec "2026-10-17T09:00:00.000Z" (b_id dune) read
                  [dune] dune eq_refl (eq_refl _))).
Defined.

(** ** Merge: ids and self-merge *)

Lemma map_get_some_key (k : string) (v : screen) (m : smap) :
  map_get k m = Some v -> In k (map fst m).
Proof.
  induction m as [|[k' v'] m IH]; simpl; [discriminate|].
  destruct (String.eqb_spec k k'); [intros _; left; congruence|].
  intros H. right. exact (IH H).
Qed.

Lemma map_get_none (k : string) (m : smap) :
  ~ In k (map fst m) -> map_get k m = None.
Proof.
  induction m as [|[k' v'] m IH]; simpl; [reflexivity|].
  intros Hn. destruct (String.eqb_spec k k'); [exfalso; apply Hn; left; congruence|].
  apply IH. tauto.
Qed.

Lemma map_set_new (k : string) (v : screen) (m : smap) :
  ~ In k (map fst m) -> map_set k v m = m ++ [(k, v)].
Proof.
  induction m as [|[k' v'] m IH]; simpl; [reflexivity|].
  intros Hn. destruct (String.eqb_spec k k'); [exfalso; apply Hn; left; congruence|].
  rewrite IH by tauto. reflexivity.
Qed.

Lemma keyed_ids (m : smap) : keyed m -> map id (map snd m) = map fst m.
Proof.
  intros [_ Hf]. induction Hf as [|[k v] m Hk _ IH]; simpl in *; [reflexivity|].
  rewrite Hk, IH. reflexivity.
Qed.

Lemma fold_set_keys (l : list screen) (m : smap) (k : string) :
  In k (map fst (fold_left (fun m s => map_set (id s) s m) l m))
  <-> In k (map id l) \/ In k (map fst m).
Proof.
  revert m; induction l as [|s l IH]; intros m; simpl; [tauto|].
  rewrite IH, map_set_keys. intuition congruence.
Qed.

Lemma merge_remote_keys (pd : string -> option Z) (m : smap) (r : screen) (k : string) :
  In k (map fst (merge_remote pd m r)) <-> k = id r \/ In k (map fst m).
Proof.
  unfold merge_remote. destruct (map_get (id r) m) as [l|] eqn:E.
  - destruct (remote_wins pd l r); [apply map_set_keys|].
    apply map_get_some_key in E. intuition congruence.
  - apply map_set_keys.
Qed.

Lemma fold_merge_keys (pd : string -> option Z) (rs : list screen) (m : smap) (k : string) :
  In k (map fst (fold_left (merge_remote pd) rs m)) <-> In k (map id rs) \/ In k (map fst m).
Proof.
  revert m; induction rs as [|r rs IH]; intros m; simpl; [tauto|].
  rewrite IH, merge_remote_keys. intuition congruence.
Qed.

(** Whatever the lists and the clock reader, the merged list holds each id
    once, and its ids are exactly those of the local and the remote lists
    together. *)
Theorem mergeScreens_ids (parse_date : string -> option Z) (L R : list screen) :
  NoDup (map id (mergeScreens parse_date L R))
  /\ (forall k, In k (map id (mergeScreens parse_date L R))
                <-> In k (map id L) \/ In k (map id R)).
Proof.
  unfold mergeScreens.
  assert (Hk : keyed (fold_left (merge_remote parse_date) R
                        (fold_left (fun m s => map_set (id s) s m) L [])))
    by (apply fold_merge_keyed, fold_set_keyed; split; constructor).
  rewrite keyed_ids by exact Hk. split; [exact (proj1 Hk)|].
  intros k. rewrite fold_merge_keys, fold_set_keys. simpl. tauto.
Qed.

Lemma remote_wins_self (pd : string -> option Z) (s : screen) : remote_wins pd s s = false.
Proof.
  unfold remote_wins. destruct (getLatestTimestamp pd s) as [[|t]|]; try reflexivity.
  simpl. rewrite Z.gtb_ltb. apply Z.ltb_irrefl.
Qed.

Lemma entries_keys (l : list screen) : map fst (entries l) = map id l.
Proof. unfold entries. rewrite map_map. reflexivity. Qed.

Lemma entries_vals (l : list screen) : map snd (entries l) = l.
Proof. unfold entries. rewrite map_map. apply map_id. Qed.

Lemma fold_set_fresh (l : list screen) (m : smap) :
  NoDup (map id l) -> (forall k, In k (map id l) -> ~ In k (map fst m)) ->
  fold_left (fun m s => map_set (id s) s m) l m = m ++ entries l.
Proof.
  revert m; induction l as [|s l IH]; intros m Hnd Hfr; simpl; [symmetry; apply app_nil_r|].
  inversion Hnd as [|? ? Hnin Hnd']; subst.
  rewrite map_set_new by (apply Hfr; left; reflexivity).
  rewrite IH; [rewrite <- app_assoc; reflexivity|exact Hnd'|].
  intros k Hk. rewrite map_app, in_app_iff. simpl. intros [H|[H|H]];
    [exact (Hfr k (or_intror Hk) H)|subst; contradiction|contradiction].
Qed.

Lemma fold_merge_fresh (pd : string -> option Z) (l : list screen) (m : smap) :
  NoDup (map id l) -> (forall k, In k (map id l) -> ~ In k (map fst m)) ->
  fold_left (merge_remote pd) l m = m ++ entries l.
Proof.
  revert m; induction l as [|s l IH]; intros m Hnd Hfr; simpl; [symmetry; apply app_nil_r|].
  inversion Hnd as [|? ? Hnin Hnd']; subst.
  unfold merge_remote at 2.
  rewrite map_get_none by (apply Hfr; left; reflexivity).
  rewrite map_set_new by (apply Hfr; left; reflexivity).
  rewrite IH; [rewrite <- app_assoc; reflexivity|exact Hnd'|].
  intros k Hk. rewrite map_app, in_app_iff. simpl. intros [H|[H|H]];
    [exact (Hfr k (or_intror Hk) H)|subst; contradiction|contradiction].
Qed.

Lemma fold_merge_present (pd : string -> option Z) (l : list screen) (m : smap) :
  (forall r, In r l -> map_get (id r) m = Some r) -> fold_left (merge_remote pd) l m = m.
Proof.
  revert m; induction l as [|r l IH]; intros m Hg; simpl; [reflexivity|].
  unfold merge_remote at 2. rewrite (Hg r (or_introl eq_refl)), remote_wins_self.
  apply IH. intros r' Hr'. apply Hg. right. exact Hr'.
Qed.

(** With unique ids, merging a list with itself, with an empty remote list
    or into an empty local list gives that list back, in its order. *)
Theorem mergeScreens_self (parse_date : string -> option Z) (L : list screen) :
  NoDup (map id L) ->
  mergeScreens parse_date L L = L /\ mergeScreens parse_date L [] = L
  /\ mergeScreens parse_date [] L = L.
Proof.
  intros Hnd. unfold mergeScreens. simpl.
  assert (H0 : fold_left (fun m s => map_set (id s) s m) L [] = entries L)
    by (apply fold_set_fresh; [exact Hnd|intros k _ []]).
  rewrite H0, entries_vals. split; [|split; [reflexivity|]].
  - rewrite fold_merge_present; [apply entries_vals|].
    intros r Hr. rewrite <- H0. apply fold_set_get; assumption.
  - rewrite fold_merge_fresh; [apply entries_vals|exact Hnd|intros k _ []].
Qed.

Lemma mergeScreens_self_witness :
  NoDup (map id [matrix; skewed_show])
  /\ mergeScreens iso_digits [matrix; skewed_show] [matrix; skewed_show] = [matrix; skewed_show]
  /\ mergeScreens iso_digits [matrix; skewed_show] [] = [matrix; skewed_show]
  /\ mergeScreens iso_digits [] [matrix; skewed_show] = [matrix; skewed_show].
Proof.
  assert (H : NoDup (map id [matrix; skewed_show])).
  { simpl. constructor; [simpl; intros [H|[]]; discriminate|].
    constructor; [simpl; tauto|constructor]. }
  split; [exact H|]. exact (mergeScreens_self iso_digits _ H).
Defined.

(** ** Collection mutations *)

Lemma update_first_none {A : Type} (p : A -> bool) (f : A -> A) (l : list A) :
  find p l = None -> update_first p f l = l.
Proof.
  induction l as [|y l IH]; simpl; [reflexivity|].
  destruct (p y); [discriminate|]. intros H. rewrite IH by exact H. reflexivity.
Qed.

Lemma update_first_skip {A : Type} (p : A -> bool) (f : A -> A) (l1 l2 : list A) (y : A) :
  forallb (fun x => negb (p x)) l1 = true -> p y = true ->
  update_first p f (l1 ++ y :: l2) = l1 ++ f y :: l2.
Proof.
  induction l1 as [|x l1 IH]; simpl; intros H1 Hy; [rewrite Hy; reflexivity|].
  apply andb_true_iff in H1 as [Hx H1]. apply negb_true_iff in Hx. rewrite Hx, IH; auto.
Qed.

Lemma getRating_setRatingTag (tags : list string) (rating : option Z) :
  getRatingFromTags (Some (setRatingTag tags rating))
  = match rating with
    | Some r => if (1 <=? r)%Z && (r <=? 10)%Z then Some r else None
    | None => None
    end.
Proof.
  unfold getRatingFromTags, setRatingTag.
  destruct rating as [r|]; [|rewrite find_filter_negb; reflexivity].
  destruct ((1 <=? r)%Z && (r <=? 10)%Z) eqn:Hb; [|rewrite find_filter_negb; reflexivity].
  apply andb_true_iff in Hb as [H1 H2]. apply Z.leb_le in H1, H2.
  destruct (rating_tag_of_valid r (conj H1 H2)) as [Hrt Hv].
  rewrite find_app, find_filter_negb. simpl. rewrite Hrt. f_equal. exact Hv.
Qed.

Lemma setRatingTag_keep (tags : list string) (rating : option Z) :
  filter (fun t => negb (is_rating_tag t)) (setRatingTag tags rating)
  = filter (fun t => negb (is_rating_tag t)) tags.
Proof.
  unfold setRatingTag. destruct rating as [r|]; [|apply filter_filter_same].
  destruct ((1 <=? r)%Z && (r <=? 10)%Z) eqn:Hb; [|apply filter_filter_same].
  apply andb_true_iff in Hb as [H1 H2]. apply Z.leb_le in H1, H2.
  destruct (rating_tag_of_valid r (conj H1 H2)) as [Hrt _].
  rewrite filter_app, filter_filter_same. simpl. rewrite Hrt. apply app_nil_r.
Qed.

(** Rating a book changes only the first book with that id: afterwards it
    reads back the given rating (none when the rating is [null] or outside
    1..10) and keeps its other tags in order; an unknown id changes nothing. *)
Theorem updateBookRating_spec (bookId : string) (rating : option Z) (books : list book) :
  match find (has_id bookId) books with
  | Some b =>
      exists l1 l2 b',
        books = l1 ++ b :: l2
        /\ updateBookRating bookId rating books = l1 ++ b' :: l2
        /\ b' = set_b_tags b (b_tags b')
        /\ getRatingFromTags (b_tags b')
           = match rating with
             | Some r => if (1 <=? r)%Z && (r <=? 10)%Z then Some r else None
             | None => None
             end
        /\ filter (fun t => negb (is_rating_tag t)) (tags_or_empty (b_tags b'))
           = filter (fun t => negb (is_rating_tag t)) (tags_or_empty (b_tags b))
  | None => updateBookRating bookId rating books = books
  end.
Proof.
  destruct (find (has_id bookId) books) as [b|] eqn:Hf; [|apply update_first_none, Hf].
  destruct (update_first_split _ (fun b => set_b_tags b (Some (setRatingTag
              (match b_tags b with Some l => l | None => [] end) rating))) _ _ Hf)
    as (l1 & l2 & Hl & _ & _ & Hu).
  eexists l1, l2, _. split; [exact Hl|]. split; [exact Hu|]. cbn [b_tags set_b_tags].
  split; [reflexivity|]. split; [apply getRating_setRatingTag|]. apply setRatingTag_keep.
Qed.

(** The same for a screen and [updateScreenRating]. *)
Theorem updateScreenRating_spec (screenId : string) (rating : option Z) (screens : list screen) :
  match find (fun s => String.eqb (id s) screenId) screens with
  | Some s =>
      exists l1 l2 s',
        screens = l1 ++ s :: l2
        /\ updateScreenRating screenId rating screens = l1 ++ s' :: l2
        /\ s' = set_tags s (tags s')
        /\ getRatingFromTags (tags s')
           = match rating with
             | Some r => if (1 <=? r)%Z && (r <=? 10)%Z then Some r else None
             | None => None
             end
        /\ filter (fun t => negb (is_rating_tag t)) (tags_or_empty (tags s'))
           = filter (fun t => negb (is_rating_tag t)) (tags_or_empty (tags s))
  | None => updateScreenRating screenId rating screens = screens
  end.
Proof.
  destruct (find (fun s => String.eqb (id s) screenId) screens) as [s|] eqn:Hf;
    [|apply update_first_none, Hf].
  destruct (update_first_split _ (fun s => set_tags s (Some (setRatingTag
              (match tags s with Some l => l | None => [] end) rating))) _ _ Hf)
    as (l1 & l2 & Hl & _ & _ & Hu).
  eexists l1, l2, _. split; [exact Hl|]. split; [exact Hu|]. cbn [tags set_tags].
  split; [reflexivity|]. split; [apply getRating_setRatingTag|]. apply setRatingTag_keep.
Qed.

Lemma set_b_tags_same (b : book) : set_b_tags b (b_tags b) = b.
Proof. destruct b; reflexivity. Qed.

Lemma includes_app_last (l : list string) (t : string) : includes (l ++ [t]) t = true.
Proof.
  unfold includes. rewrite existsb_app. simpl. rewrite String.eqb_refl, orb_true_r.
  reflexivity.
Qed.

Lemma includes_In (l : list string) (t : string) : includes l t = true <-> In t l.
Proof.
  unfold includes. rewrite existsb_exists. split.
  - intros (x & Hx & E). apply String.eqb_eq in E. subst. exact Hx.
  - intros H. exists t. split; [exact H|apply String.eqb_refl].
Qed.

(** Adding a tag changes only the first book with that id: afterwards its
    tags hold the tag, once more than before at most, and all the earlier
    tags in order; adding the same tag again changes nothing.  An unknown id
    changes nothing. *)
Theorem addTagToBook_spec (bookId tag : string) (books : list book) :
  match find (has_id bookId) books with
  | Some b =>
      exists l1 l2 b',
        books = l1 ++ b :: l2
        /\ addTagToBook bookId tag books = l1 ++ b' :: l2
        /\ b' = set_b_tags b (b_tags b')
        /\ b_tags b' = Some (tags_or_empty (b_tags b)
                             ++ if includes (tags_or_empty (b_tags b)) tag then [] else [tag])
        /\ includes (tags_or_empty (b_tags b')) tag = true
        /\ addTagToBook bookId tag (addTagToBook bookId tag books)
           = addTagToBook bookId tag books
  | None => addTagToBook bookId tag books = books
  end.
Proof.
  destruct (find (has_id bookId) books) as [b|] eqn:Hf; [|apply update_first_none, Hf].
  set (f := fun b : book => let tgs := match b_tags b with Some l => l | None => [] end in
              if includes tgs tag then set_b_tags b (Some tgs)
              else set_b_tags b (Some (tgs ++ [tag]))).
  destruct (update_first_split _ f _ _ Hf) as (l1 & l2 & Hl & Hn & Hp & Hu).
  assert (Hfb : f b = set_b_tags b (Some (tags_or_empty (b_tags b)
                  ++ if includes (tags_or_empty (b_tags b)) tag then [] else [tag]))).
  { unfold f, tags_or_empty. destruct (includes _ tag); rewrite ?app_nil_r; reflexivity. }
  assert (Hinc : includes (tags_or_empty (b_tags (f b))) tag = true).
  { rewrite Hfb. cbn [b_tags set_b_tags tags_or_empty].
    destruct (includes (tags_or_empty (b_tags b)) tag) eqn:E;
      [rewrite app_nil_r; exact E|apply includes_app_last]. }
  exists l1, l2, (f b). split; [exact Hl|]. split; [exact Hu|].
  split; [rewrite Hfb; reflexivity|]. split; [rewrite Hfb; reflexivity|].
  split; [exact Hinc|].
  unfold addTagToBook. fold f. rewrite Hu, update_first_skip; [|exact Hn|].
  - f_equal. f_equal. unfold f at 1.
    assert (Ht : exists l, b_tags (f b) = Some l) by (rewrite Hfb; eexists; reflexivity).
    destruct Ht as [l Hl']. unfold tags_or_empty in Hinc. rewrite Hl' in Hinc |- *.
    rewrite Hinc, <- Hl'. apply set_b_tags_same.
  - rewrite Hfb. exact Hp.
Qed.

(** Removing a tag changes only the first book with that id: if it has a
    tag list, the tag no longer occurs in it and every other tag stays in
    order; a book without tags and an unknown id are left unchanged. *)
Theorem removeTagFromBook_spec (bookId tag : string) (books : list book) :
  match find (has_id bookId) books with
  | Some b =>
      exists l1 l2 b',
        books = l1 ++ b :: l2
        /\ removeTagFromBook bookId tag books = l1 ++ b' :: l2
        /\ b' = set_b_tags b (b_tags b')
        /\ b_tags b' = option_map (filter (fun t => negb (String.eqb t tag))) (b_tags b)
        /\ includes (tags_or_empty (b_tags b')) tag = false
  | None => removeTagFromBook bookId tag books = books
  end.
Proof.
  destruct (find (has_id bookId) books) as [b|] eqn:Hf; [|apply update_first_none, Hf].
  set (f := fun b : book => match b_tags b with
            | Some l => set_b_tags b (Some (filter (fun t => negb (String.eqb t tag)) l))
            | None => b end).
  destruct (update_first_split _ f _ _ Hf) as (l1 & l2 & Hl & _ & _ & Hu).
  exists l1, l2, (f b). split; [exact Hl|]. split; [exact Hu|].
  unfold f. destruct (b_tags b) as [l|] eqn:E; simpl.
  - split; [reflexivity|]. split; [reflexivity|].
    apply not_true_iff_false. rewrite includes_In, filter_In.
    intros [_ H]. rewrite String.eqb_refl in H. discriminate.
  - split; [symmetry; apply set_b_tags_same|]. split; [exact E|].
    rewrite E. reflexivity.
Qed.

(** Removing a tag just added to a book's tag list that did not hold it
    gives back the collection as it was. *)
Theorem removeTag_after_addTag (bookId tag : string) (books : list book) (b : book)
  (l : list string) :
  find (has_id bookId) books = Some b -> b_tags b = Some l -> includes l tag = false ->
  removeTagFromBook bookId tag (addTagToBook bookId tag books) = books.
Proof.
  intros Hf Ht Hi.
  set (f := fun b : book => let tgs := match b_tags b with Some l => l | None => [] end in
              if includes tgs tag then set_b_tags b (Some tgs)
              else set_b_tags b (Some (tgs ++ [tag]))).
  destruct (update_first_split _ f _ _ Hf) as (l1 & l2 & Hl & Hn & Hp & Hu).
  unfold addTagToBook. fold f. rewrite Hu. unfold removeTagFromBook.
  rewrite update_first_skip; [|exact Hn|unfold f; simpl; rewrite Ht, Hi; exact Hp].
  rewrite Hl. f_equal. f_equal.
  unfold f. cbv zeta. rewrite Ht, Hi. simpl. rewrite filter_app. simpl.
  rewrite String.eqb_refl. simpl. rewrite app_nil_r.
  assert (Hk : filter (fun t => negb (String.eqb t tag)) l = l).
  { apply forallb_filter_id. apply forallb_forall. intros x Hx.
    destruct (String.eqb_spec x tag); [|reflexivity].
    subst. apply includes_In in Hx. congruence. }
  rewrite Hk, <- Ht. destruct b; reflexivity.
Qed.

Lemma removeTag_after_addTag_witness :
  find (has_id (b_id dune)) [dune] = Some dune /\ b_tags dune = Some ["scifi"]
  /\ includes ["scifi"] "classic" = false
  /\ removeTagFromBook (b_id dune) "classic" (addTagToBook (b_id dune) "classic" [dune])
     = [dune].
Proof.
  assert (H1 : find (has_id (b_id dune)) [dune] = Some dune) by (vm_compute; reflexivity).
  assert (H2 : b_tags dune = Some ["scifi"]) by reflexivity.
  assert (H3 : includes ["scifi"] "classic" = false) by (vm_compute; reflexivity).
  split; [exact H1|]. split; [exact H2|]. split; [exact H3|].
  exact (removeTag_after_addTag (b_id dune) "classic" [dune] dune ["scifi"] H1 H2 H3).
Defined.

(** Deleting a book that the user confirms removes every book with that id
    and keeps the others in order; declining, or an unknown id, changes
    nothing. *)
Theorem removeBook_spec (bookId : string) (confirmDelete : bool) (books : list book) :
  removeBook bookId confirmDelete books
  = (if confirmDelete then filter (fun b => negb (has_id bookId b)) books else books)
  /\ (forall b, In b (removeBook bookId true books) -> b_id b <> bookId).
Proof.
  assert (Hgen : forall c, removeBook bookId c books
                 = if c then filter (fun b => negb (has_id bookId b)) books else books).
  { intros c. unfold removeBook. destruct (find (has_id bookId) books) eqn:Hf;
      [reflexivity|]. destruct c; [|reflexivity]. symmetry.
    apply forallb_filter_id, forallb_forall. intros x Hx.
    destruct (has_id bookId x) eqn:E; [|reflexivity].
    pose proof (find_none _ _ Hf x Hx) as H0. congruence. }
  split; [apply Hgen|]. intros b. rewrite Hgen, filter_In. intros [_ H].
  unfold has_id in H. destruct (String.eqb_spec (b_id b) bookId); [discriminate|assumption].
Qed.





Lemma screen_status_name_inj (a b : screen_status) :
  screen_status_name a = screen_status_name b -> a = b.
Proof. destruct a, b; simpl; congruence. Qed.

Lemma book_status_name_inj (a b : book_status) :
  book_status_name a = book_status_name b -> a = b.
Proof. destruct a, b; simpl; congruence. Qed.

(** Selecting two different list statuses in the screen filter bar shows no
    screen at all: every selected tag must match. *)
Theorem filter_screens_status_conflict (filterTags : list string) (screens : list screen)
  (st1 st2 : screen_status) :
  In (screen_status_name st1) filterTags -> In (screen_status_name st2) filterTags ->
  st1 <> st2 -> filter_screens filterTags screens = [].
Proof.
  intros H1 H2 Hne. unfold filter_screens.
  destruct filterTags as [|t ft]; [contradiction|]. simpl Nat.ltb. cbv iota.
  assert (Hf : forall s, screen_matches (t :: ft) s = false);
    [intros s|induction screens as [|x l IH]; cbn [filter]; [reflexivity|rewrite Hf; exact IH]].
  apply not_true_iff_false. intros Hm. unfold screen_matches in Hm.
  rewrite forallb_forall in Hm.
  assert (Hc : forall st, In (screen_status_name st) (t :: ft) ->
                          getScreenListStatus s = Some st).
  { intros st Hin. specialize (Hm _ Hin).
    replace (includes ["to_watch"; "watching"; "watched"] (screen_status_name st)) with true
      in Hm by (destruct st; reflexivity).
    destruct (getScreenListStatus s) as [x|]; [|discriminate].
    apply String.eqb_eq, screen_status_name_inj in Hm. congruence. }
  rewrite (Hc st1 H1) in Hc. apply Hne. specialize (Hc st2 H2). congruence.
Qed.

Lemma filter_screens_status_conflict_witness :
  In (screen_status_name to_watch) ["scifi"; "to_watch"; "watched"]
  /\ In (screen_status_name watched) ["scifi"; "to_watch"; "watched"]
  /\ to_watch <> watched
  /\ filter_screens ["scifi"; "to_watch"; "watched"] [matrix; matrix_watched; skewed_show] = [].
Proof.
  assert (H1 : In (screen_status_name to_watch) ["scifi"; "to_watch"; "watched"])
    by (simpl; tauto).
  assert (H2 : In (screen_status_name watched) ["scifi"; "to_watch"; "watched"])
    by (simpl; tauto).
  assert (H3 : to_watch <> watched) by discriminate.
  split; [exact H1|]. split; [exact H2|]. split; [exact H3|].
  exact (filter_screens_status_conflict _ _ _ _ H1 H2 H3).
Defined.

(** The same for the book filter bar. *)
Theorem filter_books_status_conflict (filterTags : list string) (books : list book)
  (st1 st2 : book_status) :
  In (book_status_name st1) filterTags -> In (book_status_name st2) filterTags ->
  st1 <> st2 -> filter_books filterTags books = [].
Proof.
  intros H1 H2 Hne. unfold filter_books.
  destruct filterTags as [|t ft]; [contradiction|]. simpl Nat.ltb. cbv iota.
  assert (Hf : forall b, book_matches (t :: ft) b = false);
    [intros b|induction books as [|x l IH]; cbn [filter]; [reflexivity|rewrite Hf; exact IH]].
  apply not_true_iff_false. intros Hm. unfold book_matches in Hm.
  rewrite forallb_forall in Hm.
  assert (Hc : forall st, In (book_status_name st) (t :: ft) ->
                          getBookListStatus b = Some st).
  { intros st Hin. specialize (Hm _ Hin).
    replace (String.eqb (book_status_name st) "to_read"
             || String.eqb (book_status_name st) "reading"
             || String.eqb (book_status_name st) "read") with true
      in Hm by (destruct st; reflexivity).
    destruct (getBookListStatus b) as [x|]; [|discriminate].
    apply String.eqb_eq, book_status_name_inj in Hm. congruence. }
  rewrite (Hc st1 H1) in Hc. apply Hne. specialize (Hc st2 H2). congruence.
Qed.

Lemma filter_books_status_conflict_witness :
  In (book_status_name reading) ["reading"; "read"]
  /\ In (book_status_name read) ["reading"; "read"] /\ reading <> read
  /\ filter_books ["reading"; "read"] [dune] = [].
Proof.
  assert (H1 : In (book_status_name reading) ["reading"; "read"]) by (simpl; tauto).
  assert (H2 : In (book_status_name read) ["reading"; "read"]) by (simpl; tauto).
  assert (H3 : reading <> read) by discriminate.
  split; [exact H1|]. split; [exact H2|]. split; [exact H3|].
  exact (filter_books_status_conflict _ _ _ _ H1 H2 H3).
Defined.

(** ** Books read back from a TSV file *)

Lemma truthy_or_null (x : string) : truthy (or_null x) = nonempty x.
Proof. unfold or_null. destruct (nonempty x) eqn:E; simpl; [exact E|reflexivity]. Qed.

Lemma ts_le_or_null_empty (x y : string) :
  nonempty y = false -> ts_le (or_null x) (or_null y) = true.
Proof. intros H. unfold or_null at 2. rewrite H. destruct (or_null x); reflexivity. Qed.

Lemma repair_str_le (x y : string) : ts_le (or_null (repair_str x y)) (or_null y) = true.
Proof.
  unfold repair_str. destruct (negb (nonempty x) || str_gt x y) eqn:H; [apply ts_le_refl|].
  apply orb_false_iff in H as [H1 H2]. apply negb_false_iff in H1.
  unfold or_null. rewrite H1. destruct (nonempty y) eqn:Hy; [|reflexivity].
  simpl. rewrite H1, Hy. apply str_gt_false_leb. exact H2.
Qed.

Lemma repair_str_shape (x y : string) :
  repair_str x y = y \/ nonempty (repair_str x y) = true.
Proof.
  unfold repair_str. destruct (negb (nonempty x) || str_gt x y) eqn:H; [left; reflexivity|].
  right. apply orb_false_iff in H as [H1 _]. apply negb_false_iff in H1. exact H1.
Qed.

(** The three timestamp repairs of a row leave its values ordered. *)
Lemma row_repairs_ordered (added st fin : string) :
  let added1 := if nonempty st then repair_str added st else added in
  let '(a, s) := if nonempty fin
                 then (repair_str added1 (repair_str st fin), repair_str st fin)
                 else (added1, st) in
  ts_le (or_null a) (or_null s) = true /\ ts_le (or_null s) (or_null fin) = true
  /\ ts_le (or_null a) (or_null fin) = true.
Proof.
  intros added1. destruct (nonempty fin) eqn:Hf.
  - set (s2 := repair_str st fin). set (a2 := repair_str added1 s2).
    assert (H1 : ts_le (or_null a2) (or_null s2) = true) by apply repair_str_le.
    assert (H2 : ts_le (or_null s2) (or_null fin) = true) by apply repair_str_le.
    split; [exact H1|]. split; [exact H2|].
    destruct (repair_str_shape added1 s2) as [E|E]; fold a2 in E;
      [rewrite E; exact H2|].
    destruct (repair_str_shape st fin) as [E2|E2]; fold s2 in E2;
      [rewrite E2 in H1; exact H1|].
    apply (ts_le_trans _ (or_null s2)); [rewrite truthy_or_null; exact E2|exact H1|exact H2].
  - split; [|split; apply ts_le_or_null_empty; exact Hf].
    unfold added1. destruct (nonempty st) eqn:Hs; [apply repair_str_le|].
    apply ts_le_or_null_empty. exact Hs.
Qed.

Lemma migrate_tags (o : option string) (x y z u v : string) (l : list string)
  (st fin : string) (tg : list string) :
  match o with
  | Some "to_read" => (EmptyString, EmptyString, l)
  | Some "reading" => (x, EmptyString, l)
  | Some "read" => (y, z, l)
  | _ => (u, v, l)
  end = (st, fin, tg) -> tg = l.
Proof.
  intros E. destruct o as [s|]; [|congruence].
  repeat match type of E with context [match ?v with _ => _ end] => destruct v end;
    congruence.
Qed.

Lemma split_on_pieces (c : ascii) (s x : string) :
  In x (split_on c s) -> contains_char c x = false.
Proof.
  revert x. induction s as [|a s IH]; intros x; simpl.
  - intros [<-|[]]. reflexivity.
  - destruct (Ascii.eqb a c) eqn:Ea.
    + intros [<-|H]; [reflexivity|exact (IH x H)].
    + destruct (split_on c s) as [|y rest] eqn:Es.
      * intros [<-|[]]. simpl. rewrite Ea. reflexivity.
      * intros [<-|H]; [|apply IH; right; exact H].
        simpl. rewrite Ea. apply IH. left. reflexivity.
Qed.

(** A row read by [tsvToBooks] has ordered timestamps, and tags that are
    not blank, hold no comma and, for a file in the old format, no list tag. *)
Lemma parse_book_row_ok (header : list string) (line : string) (r : row_vals) (ch : bool) :
  parse_book_row header line = Some (r, ch) ->
  (ts_le (or_null (rv_added r)) (or_null (rv_started r)) = true
   /\ ts_le (or_null (rv_started r)) (or_null (rv_finished r)) = true
   /\ ts_le (or_null (rv_added r)) (or_null (rv_finished r)) = true)
  /\ Forall (fun t => nonempty (trim t) = true /\ contains_char COMMA t = false) (rv_tags r)
  /\ (needsMigration header = true -> Forall (fun t => is_list_tag t = false) (rv_tags r)).
Proof.
  unfold parse_book_row. cbv zeta.
  destruct (nonempty _); [|discriminate].
  destruct (sanitizeField _) as [t c1]. destruct (sanitizeField _) as [a c2].
  destruct (sanitizeField _) as [d c3].
  set (tgs := if nonempty (getValue header (split_on TAB line) "tags")
              then filter (fun t : string => nonempty (trim t))
                     (split_on COMMA (getValue header (split_on TAB line) "tags"))
              else []).
  assert (Htg : Forall (fun t => nonempty (trim t) = true /\ contains_char COMMA t = false)
                       tgs).
  { unfold tgs. destruct (nonempty _); [|constructor].
    apply Forall_forall. intros x Hx. apply filter_In in Hx as [Hx Hn].
    split; [exact Hn|]. exact (split_on_pieces _ _ _ Hx). }
  match goal with |- context [match ?x with pair _ _ => _ end] =>
    destruct x as [[st0 fin0] tg0] eqn:EX end.
  assert (Htg0 : tg0 = tgs /\ needsMigration header = false
                 \/ tg0 = filter (fun t => negb (is_list_tag t)) tgs
                    /\ needsMigration header = true).
  { destruct (needsMigration header).
    - right. split; [|reflexivity]. apply migrate_tags in EX. exact EX.
    - left. split; [congruence|reflexivity]. }
  pose proof (row_repairs_ordered (getValue header (split_on TAB line) "addedAt") st0 fin0)
    as Hord. cbv zeta in Hord.
  destruct (if nonempty fin0 then _ else _) as [a' s'].
  simpl. intros [= <- _]. cbn [rv_added rv_started rv_finished rv_tags].
  split; [exact Hord|].
  destruct Htg0 as [[-> Hm]|[-> Hm]].
  - split; [exact Htg|]. intros Hm'. exfalso. congruence.
  - split; [apply Forall_forall; intros x Hx; apply filter_In in Hx as [Hx _];
            exact (proj1 (Forall_forall _ _) Htg x Hx)|].
    intros _. apply Forall_forall. intros x Hx. apply filter_In in Hx as [_ Hx].
    apply negb_true_iff. exact Hx.
Qed.

Lemma books_loop_from (header lines : list string) (st : loop_state) :
  (forall b, In b (ls_books (books_loop header lines st)) ->
     In b (ls_books st)
     \/ exists line r ch, parse_book_row header line = Some (r, ch) /\ b = book_of_row r)
  /\ (forall r, In r (ls_fetch (books_loop header lines st)) ->
        In r (ls_fetch st) \/ exists line ch, parse_book_row header line = Some (r, ch)).
Proof.
  revert st. induction lines as [|line rest IH]; intros st; simpl; [split; auto|].
  destruct (parse_book_row header line) as [[r ch]|] eqn:Ep; [|apply IH].
  destruct (IH (if needsAPIFetch r
                then mkLoop (ls_books st) (ls_fetch st ++ [r]) (ls_needsSanitization st || ch)
                else mkLoop (ls_books st ++ [book_of_row r]) (ls_fetch st)
                            (ls_needsSanitization st || ch))) as [Hb Hf].
  destruct (needsAPIFetch r); split.
  - intros b Hin. destruct (Hb b Hin) as [H|H]; [left; exact H|right; exact H].
  - intros r' Hin. destruct (Hf r' Hin) as [H|H]; [|right; exact H].
    simpl in H. apply in_app_iff in H as [H|[<-|[]]]; [left; exact H|].
    right. exists line, ch. exact Ep.
  - intros b Hin. destruct (Hb b Hin) as [H|H]; [|right; exact H].
    simpl in H. apply in_app_iff in H as [H|[<-|[]]]; [left; exact H|].
    right. exists line, r, ch. split; [exact Ep|reflexivity].
  - intros r' Hin. destruct (Hf r' Hin) as [H|H]; [left; exact H|right; exact H].
Qed.

(** Every book [tsvToBooks] reads, with or without a backfill from Google
    Books, has ordered timestamps (addedAt, startedAt, finishedAt) and a tag
    list whose tags are not blank and hold no comma; when the file is in the
    old format (no startedAt or finishedAt column) no tag is a list tag. *)
Theorem tsvToBooks_books_clean (google : string -> api_result) (tsv : string) (b : book) :
  In b (fst (tsvToBooks google tsv)) ->
  book_ordered b = true
  /\ exists tl, b_tags b = Some tl
     /\ Forall (fun t => nonempty (trim t) = true /\ contains_char COMMA t = false) tl
     /\ (needsMigration (tsv_header tsv) = true -> Forall (fun t => is_list_tag t = false) tl).
Proof.
  unfold tsvToBooks. fold (tsv_header tsv). fold (tsv_data tsv). simpl.
  destruct (books_loop_from (tsv_header tsv) (tsv_data tsv) (mkLoop [] [] false))
    as [Hb Hf].
  assert (Hrow : forall line r ch, parse_book_row (tsv_header tsv) line = Some (r, ch) ->
            forall b, b_tags b = Some (rv_tags r) ->
            book_ordered b = book_ordered (book_of_row r) ->
            book_ordered b = true
            /\ exists tl, b_tags b = Some tl
               /\ Forall (fun t => nonempty (trim t) = true /\ contains_char COMMA t = false) tl
               /\ (needsMigration (tsv_header tsv) = true ->
                   Forall (fun t => is_list_tag t = false) tl)).
  { intros line r ch Hp b' Ht Ho.
    destruct (parse_book_row_ok _ _ _ _ Hp) as [[O1 [O2 O3]] [T1 T2]].
    split; [rewrite Ho; unfold book_ordered; simpl; rewrite O1, O2, O3; reflexivity|].
    exists (rv_tags r). auto. }
  rewrite in_app_iff. intros [Hin|Hin].
  - destruct (Hb b Hin) as [[]|(line & r & ch & Hp & ->)].
    exact (Hrow line r ch Hp (book_of_row r) eq_refl eq_refl).
  - apply in_map_iff in Hin as (r & <- & Hin).
    destruct (Hf r Hin) as [[]|(line & ch & Hp)].
    apply (Hrow line r ch Hp); unfold resolve_fetch; destruct (google (rv_isbn r)); reflexivity.
Qed.

Lemma tsvToBooks_books_clean_witness :
  let tsv := "isbn	title	author	tags	addedAt
9780441013593	Dune		scifi, read ,	2024-01-01T00:00:00.000Z"%string in
  let b := hd dune (fst (tsvToBooks (fun _ => ApiNoItems) tsv)) in
  In b (fst (tsvToBooks (fun _ => ApiNoItems) tsv))
  /\ book_ordered b = true
  /\ exists tl, b_tags b = Some tl
     /\ Forall (fun t => nonempty (trim t) = true /\ contains_char COMMA t = false) tl
     /\ (needsMigration (tsv_header tsv) = true -> Forall (fun t => is_list_tag t = false) tl).
Proof.
  intros tsv b.
  assert (H : In b (fst (tsvToBooks (fun _ => ApiNoItems) tsv)))
    by (vm_compute; left; reflexivity).
  split; [exact H|]. exact (tsvToBooks_books_clean _ _ _ H).
Defined.

(** ** Metadata edits *)

Lemma update_first_keys_nodup {A : Type} (key : A -> string) (p : A -> bool) (f : A -> A)
  (l : list A) (x : A) :
  find p l = Some x -> NoDup (map key l) ->
  key (f x) = key x \/ ~ In (key (f x)) (map key l) ->
  NoDup (map key (update_first p f l)).
Proof.
  intros Hf Hnd Hk.
  destruct (update_first_split p f l x Hf) as (l1 & l2 & Hl & _ & _ & Hu).
  rewrite Hu. rewrite Hl in Hnd, Hk. rewrite map_app in *. cbn [map] in *.
  destruct Hk as [Hk|Hk]; [rewrite Hk; exact Hnd|].
  apply (Permutation_NoDup (Permutation_middle _ _ _)). constructor.
  - intros Hin. apply Hk. apply in_app_iff in Hin as [H|H]; apply in_app_iff;
      [left|right; right]; exact H.
  - exact (NoDup_remove_1 _ _ _ Hnd).
Qed.

Lemma find_none_not_in_keys {A : Type} (key : A -> string) (l : list A) (v : string) :
  find (fun y => String.eqb (key y) v) l = None -> ~ In v (map key l).
Proof.
  intros Hf Hin. apply in_map_iff in Hin as (y & Hy & Hin).
  pose proof (find_none _ _ Hf y Hin) as H. simpl in H.
  rewrite Hy, String.eqb_refl in H. discriminate.
Qed.

(** Editing a book's metadata keeps book ids unique, provided the new id,
    when the edit sets one, is not empty: an id already taken by another book
    is refused.  (An empty id would skip that check.) *)
Theorem updateBookMetadata_ids (bookId : string) (u : book_updates) (books : list book) :
  NoDup (map b_id books) ->
  match bu_id u with Some v => nonempty v = true | None => True end ->
  NoDup (map b_id (updateBookMetadata bookId u books)).
Proof.
  intros Hnd Hv. unfold updateBookMetadata.
  destruct (find (has_id bookId) books) as [x|] eqn:Hf; [|exact Hnd].
  destruct (_ && _ && _) eqn:Hc; [exact Hnd|].
  apply (update_first_keys_nodup b_id _ _ _ x Hf Hnd). unfold assign_book.
  destruct (bu_id u) as [v|]; cbn [b_id]; [|left; reflexivity].
  cbn [truthy or_empty] in Hc. rewrite Hv in Hc. cbn [andb] in Hc.
  destruct (String.eqb_spec v bookId) as [->|Hne].
  - left. apply find_some in Hf as [_ Hx]. symmetry. apply String.eqb_eq, Hx.
  - right. cbn [negb andb] in Hc.
    destruct (find (has_id v) books) eqn:Hd; [discriminate|].
    exact (find_none_not_in_keys b_id books v Hd).
Qed.

Lemma updateBookMetadata_ids_witness :
  NoDup (map b_id [dune]) /\ nonempty "9780441172719" = true
  /\ NoDup (map b_id (updateBookMetadata (b_id dune)
       (mkBookUpdates (Some "9780441172719") (Some "Dune") (Some "Frank Herbert")
          (Some "1965") None None (Some "9780441172719")) [dune])).
Proof.
  assert (H1 : NoDup (map b_id [dune])) by (repeat constructor; simpl; tauto).
  assert (H2 : nonempty "9780441172719" = true) by reflexivity.
  split; [exact H1|]. split; [exact H2|].
  exact (updateBookMetadata_ids _ (mkBookUpdates (Some "9780441172719") (Some "Dune")
           (Some "Frank Herbert") (Some "1965") None None (Some "9780441172719")) _ H1 H2).
Defined.

(** The same for screens and [updateScreenMetadata]. *)
Theorem updateScreenMetadata_ids (screenId : string) (u : screen_updates)
  (screens : list screen) :
  NoDup (map id screens) ->
  match su_id u with Some v => nonempty v = true | None => True end ->
  NoDup (map id (updateScreenMetadata screenId u screens)).
Proof.
  intros Hnd Hv. unfold updateScreenMetadata.
  destruct (find (fun s => String.eqb (id s) screenId) screens) as [x|] eqn:Hf; [|exact Hnd].
  destruct (_ && _ && _) eqn:Hc; [exact Hnd|].
  apply (update_first_keys_nodup id _ _ _ x Hf Hnd). unfold assign_screen.
  destruct (su_id u) as [v|]; cbn [id]; [|left; reflexivity].
  cbn [truthy or_empty] in Hc. rewrite Hv in Hc. cbn [andb] in Hc.
  destruct (String.eqb_spec v screenId) as [->|Hne].
  - left. apply find_some in Hf as [_ Hx]. symmetry. apply String.eqb_eq, Hx.
  - right. cbn [negb andb] in Hc.
    destruct (find (fun s => String.eqb (id s) v) screens) eqn:Hd; [discriminate|].
    exact (find_none_not_in_keys id screens v Hd).
Qed.

Lemma updateScreenMetadata_ids_witness :
  NoDup (map id [matrix; skewed_show]) /\ nonempty "movie_604" = true
  /\ NoDup (map id (updateScreenMetadata "movie_603"
       (mkScreenUpdates (Some "movie_604") (Some "The Matrix Reloaded") (Some "movie")
          (Some "2003") None None)
       [matrix; skewed_show])).
Proof.
  assert (H1 : NoDup (map id [matrix; skewed_show])).
  { simpl. constructor; [simpl; intros [H|[]]; discriminate|].
    constructor; [simpl; tauto|constructor]. }
  assert (H2 : nonempty "movie_604" = true) by reflexivity.
  split; [exact H1|]. split; [exact H2|].
  exact (updateScreenMetadata_ids _ (mkScreenUpdates (Some "movie_604")
           (Some "The Matrix Reloaded") (Some "movie") (Some "2003") None None) _ H1 H2).
Defined.

Lemma trim_start_len (s : string) :
  trim_start s = s \/ (String.length (trim_start s) < String.length s)%nat.
Proof.
  induction s as [|a s IH]; simpl; [left; reflexivity|].
  destruct (is_ws a); [right|left; reflexivity].
  destruct IH as [->|H]; simpl; lia.
Qed.

Lemma trim_end_len (s : string) : (String.length (trim_end s) <= String.length s)%nat.
Proof.
  induction s as [|a s IH]; simpl; [lia|].
  destruct (is_ws a && String.eqb (trim_end s) EmptyString); simpl; lia.
Qed.

Lemma trim_id_parts (x : string) : trim x = x -> trim_start x = x /\ trim_end x = x.
Proof.
  unfold trim. intros H. destruct (trim_start_len x) as [E|E].
  - rewrite E in H. split; assumption.
  - exfalso. pose proof (trim_end_len (trim_start x)). rewrite H in H0. lia.
Qed.

Lemma trim_start_app (x z : string) :
  trim_start x = x -> nonempty x = true -> trim_start (x ++ z) = (x ++ z)%string.
Proof.
  destruct x as [|a x]; [discriminate|]. simpl. intros H _.
  destruct (is_ws a) eqn:E; [|reflexivity].
  exfalso. apply (f_equal String.length) in H. simpl in H.
  destruct (trim_start_len x) as [E2|E2]; [rewrite E2 in H|]; lia.
Qed.

Lemma trim_end_app (z y : string) :
  trim_end y = y -> nonempty y = true -> trim_end (z ++ y) = (z ++ y)%string.
Proof.
  intros H Hn. induction z as [|a z IH]; simpl; [exact H|].
  rewrite IH.
  assert (Hz : String.eqb (z ++ y) EmptyString = false).
  { destruct z; [|reflexivity]. unfold nonempty in Hn. apply negb_true_iff, Hn. }
  rewrite Hz, andb_false_r. reflexivity.
Qed.

Lemma str_app_assoc (a b c : string) : (a ++ (b ++ c))%string = ((a ++ b) ++ c)%string.
Proof. induction a as [|x a IH]; simpl; [reflexivity|]. rewrite IH. reflexivity. Qed.

Lemma concat_last (sep y : string) (l : list string) :
  l <> [] -> String.concat sep (l ++ [y]) = (String.concat sep l ++ sep ++ y)%string.
Proof.
  induction l as [|x l IH]; intros Hne; [congruence|].
  destruct l as [|x' l]; [reflexivity|]. cbn [app] in *.
  change (String.concat sep (x :: x' :: (l ++ [y])))
    with (x ++ sep ++ String.concat sep (x' :: (l ++ [y])))%string.
  rewrite IH by discriminate.
  change (String.concat sep (x :: x' :: l)) with (x ++ sep ++ String.concat sep (x' :: l))%string.
  rewrite <- !str_app_assoc. reflexivity.
Qed.

Lemma trim_join (sep : string) (l : list string) :
  l <> [] -> Forall (fun t => nonempty t = true /\ trim t = t) l ->
  trim (String.concat sep l) = String.concat sep l.
Proof.
  intros Hne Hf. unfold trim.
  assert (Hs : trim_start (String.concat sep l) = String.concat sep l).
  { destruct l as [|x rest]; [congruence|]. inversion_clear Hf as [|? ? [Hx Htx] _].
    destruct (trim_id_parts x Htx) as [Hts _].
    destruct rest as [|y rest].
    - exact Hts.
    - change (String.concat sep (x :: y :: rest))
        with (x ++ sep ++ String.concat sep (y :: rest))%string.
      apply trim_start_app; assumption. }
  rewrite Hs.
  destruct (exists_last Hne) as (l' & y & ->).
  apply Forall_app in Hf as [_ Hy]. inversion_clear Hy as [|? ? [Hny Hty] _].
  destruct (trim_id_parts y Hty) as [_ Hte].
  destruct l' as [|x l'].
  - exact Hte.
  - rewrite concat_last by discriminate. rewrite str_app_assoc.
    apply trim_end_app; assumption.
Qed.

Lemma getValue_book_columns (cols : list string) :
  getValue book_columns cols "addedAt" = trim (nth 0 cols EmptyString)
  /\ getValue book_columns cols "startedAt" = trim (nth 1 cols EmptyString)
  /\ getValue book_columns cols "finishedAt" = trim (nth 2 cols EmptyString)
  /\ getValue book_columns cols "isbn" = trim (nth 3 cols EmptyString)
  /\ getValue book_columns cols "tags" = trim (nth 4 cols EmptyString)
  /\ getValue book_columns cols "title" = trim (nth 5 cols EmptyString)
  /\ getValue book_columns cols "author" = trim (nth 6 cols EmptyString)
  /\ getValue book_columns cols "year" = trim (nth 7 cols EmptyString)
  /\ getValue book_columns cols "coverUrl" = trim (nth 8 cols EmptyString)
  /\ getValue book_columns cols "description" = trim (nth 9 cols EmptyString).
Proof. repeat split. Qed.

Lemma sanitizeField_clean (s : string) :
  contains_char DQUOTE s = false -> sanitizeField s = (s, false).
Proof.
  intros H. unfold sanitizeField. destruct (nonempty s) eqn:E; simpl.
  - rewrite replace_char_absent_id by exact H. rewrite String.eqb_refl. reflexivity.
  - unfold nonempty in E. apply negb_false_iff, String.eqb_eq in E. subst. reflexivity.
Qed.

Lemma tags_cell_eq (o : option (list string)) :
  match o with Some ((_ :: _) as l) => join "," l | _ => EmptyString end
  = join "," (tags_or_empty o).
Proof. destruct o as [[|x l]|]; reflexivity. Qed.

Lemma tags_cell_read (l : list string) :
  Forall (fun t => field_text t /\ contains_char COMMA t = false) l ->
  (if nonempty (trim (join "," l))
   then filter (fun t => nonempty (trim t)) (split_on COMMA (trim (join "," l))) else [])
  = l.
Proof.
  intros Hf. destruct l as [|x l]; [reflexivity|].
  unfold join. rewrite trim_join; [|discriminate|].
  2: { eapply Forall_impl; [|exact Hf]. intros t [(H1 & H2 & _) _]. split; assumption. }
  assert (Hne : nonempty (String.concat "," (x :: l)) = true).
  { inversion_clear Hf as [|? ? [(Hx & _) _] _]. destruct l as [|y l]; [exact Hx|].
    change (String.concat "," (x :: y :: l))
      with (x ++ String COMMA (String.concat "," (y :: l)))%string.
    apply nonempty_app_cons. }
  rewrite Hne. change (String.concat "," (x :: l)) with (join (str1 COMMA) (x :: l)).
  rewrite split_on_join; [|discriminate|].
  - apply forallb_filter_id, forallb_forall. intros t Ht.
    rewrite Forall_forall in Hf. destruct (Hf t Ht) as [(Hn & Htr & _) _].
    rewrite Htr. exact Hn.
  - eapply Forall_impl; [|exact Hf]. intros t [_ H]. exact H.
Qed.

Lemma ts_text_facts (o : option string) :
  ts_text o ->
  trim (or_empty o) = or_empty o /\ contains_char TAB (or_empty o) = false
  /\ contains_char LF (or_empty o) = false /\ or_null (or_empty o) = o
  /\ nonempty (or_empty o) = truthy o.
Proof.
  destruct o as [x|]; simpl; [|intros _; repeat split].
  intros (Hn & Ht & Htab & Hlf). repeat split; try assumption.
  unfold or_null. rewrite Hn. reflexivity.
Qed.

Lemma repair_str_keep (x y : string) :
  nonempty x = true -> nonempty y = true -> ts_le (or_null x) (or_null y) = true ->
  repair_str x y = x.
Proof.
  intros Hx Hy Hle. unfold or_null in Hle. rewrite Hx, Hy in Hle. simpl in Hle.
  rewrite Hx, Hy in Hle. simpl in Hle.
  unfold repair_str. rewrite Hx. simpl. unfold str_gt.
  apply str_leb_iff in Hle. unfold String.ltb.
  destruct (String.compare y x) eqn:E; try reflexivity.
  exfalso. apply Hle. rewrite String.compare_antisym, E. reflexivity.
Qed.

Lemma parse_exported_row (b : book) :
  book_exportable b ->
  exists r, parse_book_row book_columns (join (str1 TAB) (book_fields b)) = Some (r, false)
            /\ needsAPIFetch r = false /\ book_of_row r = synced_copy b.
Proof.
  destruct b as [bid bi bt ba byr bd bc btg bad bst bfi bcc].
  intros (Hi & Ht & Ha & Hy & Hc & Hd & Htg & Had & Hst & Hfi & Hc1 & Hc2 & Ho).
  cbn [isbn b_title author b_year coverUrl description b_tags b_addedAt startedAt
       b_finishedAt] in *.
  destruct Hi as (i & -> & Fi). destruct Ht as (t & -> & Ft & Ftcr & Ftq).
  destruct Ha as (a & -> & Fa & Facr & Faq). destruct Hy as (y & -> & Fy).
  destruct Hc as (c & -> & Fc). destruct Hd as (d & -> & Fd & Fdcr & Fdq).
  pose proof (ts_text_facts _ Had) as (Tad1 & Tad2 & Tad3 & Tad4 & Tad5).
  pose proof (ts_text_facts _ Hst) as (Tst1 & Tst2 & Tst3 & Tst4 & Tst5).
  pose proof (ts_text_facts _ Hfi) as (Tfi1 & Tfi2 & Tfi3 & Tfi4 & Tfi5).
  assert (Esc : forall v, field_text v -> contains_char CR v = false ->
                contains_char DQUOTE v = false -> escapeField (Some v) = v).
  { intros v (_ & _ & H1 & H2) H3 H4. apply escapeField_clean_id.
    repeat constructor; assumption. }
  set (tl := tags_or_empty btg) in *.
  assert (Hfields : book_fields (mkBook bid (Some i) (Some t) (Some a) (Some y) (Some d)
                                  (Some c) btg bad bst bfi bcc)
                    = [or_empty bad; or_empty bst; or_empty bfi; i; join "," tl; t; a; y; c; d]).
  { unfold book_fields. cbn [isbn b_title author b_year coverUrl description b_tags b_addedAt
                             startedAt b_finishedAt].
    rewrite tags_cell_eq, !Esc by assumption. reflexivity. }
  rewrite Hfields.
  assert (Htl_tab : contains_char TAB (join "," tl) = false).
  { apply contains_char_join; [reflexivity|]. eapply Forall_impl; [|exact Htg].
    intros x [(_ & _ & H & _) _]. exact H. }
  set (F := [or_empty bad; or_empty bst; or_empty bfi; i; join "," tl; t; a; y; c; d]).
  assert (Hsplit : split_on TAB (join (str1 TAB) F) = F).
  { apply split_on_join; [discriminate|].
    destruct Fi as (_ & _ & Fi3 & _), Ft as (_ & _ & Ft3 & _), Fa as (_ & _ & Fa3 & _),
      Fy as (_ & _ & Fy3 & _), Fc as (_ & _ & Fc3 & _), Fd as (_ & _ & Fd3 & _).
    repeat constructor; assumption. }
  unfold parse_book_row. cbv zeta. rewrite Hsplit.
  destruct (getValue_book_columns F) as (G1 & G2 & G3 & G4 & G5 & G6 & G7 & G8 & G9 & G10).
  rewrite G1, G2, G3, G4, G5, G6, G7, G8, G9, G10. unfold F. cbn [nth].
  destruct Fi as (Fi1 & Fi2 & _), Ft as (Ft1 & Ft2 & _), Fa as (Fa1 & Fa2 & _),
    Fy as (Fy1 & Fy2 & _), Fc as (Fc1 & Fc2 & _), Fd as (Fd1 & Fd2 & _).
  rewrite Tad1, Tst1, Tfi1, Fi2, Ft2, Fa2, Fy2, Fc2, Fd2, Fi1.
  rewrite !sanitizeField_clean by assumption.
  replace (needsMigration book_columns) with false by reflexivity.
  rewrite tags_cell_read by exact Htg.
  unfold book_ordered in Ho. cbn [b_addedAt startedAt b_finishedAt] in Ho.
  apply andb_true_iff in Ho as [Ho Ho3]. apply andb_true_iff in Ho as [Ho1 Ho2].
  rewrite <- Tad4, <- Tst4 in Ho1. rewrite <- Tst4, <- Tfi4 in Ho2.
  cbn [truthy startedAt b_addedAt b_finishedAt] in Hc1, Hc2.
  rewrite <- Tst5, <- Tad5 in Hc1. rewrite <- Tfi5, <- Tst5 in Hc2.
  assert (Hfin : forall ad st,
            ad = or_empty bad -> st = or_empty bst ->
            exists r, Some ({| rv_isbn := i; rv_title := t; rv_author := a; rv_year := y;
                               rv_description := d; rv_coverUrl := c; rv_tags := tl;
                               rv_added := ad; rv_started := st; rv_finished := or_empty bfi |},
                            false || false || false) = Some (r, false)
              /\ needsAPIFetch r = false
              /\ book_of_row r = synced_copy
                   {| b_id := bid; isbn := Some i; b_title := Some t; author := Some a;
                      b_year := Some y; description := Some d; coverUrl := Some c;
                      b_tags := btg; b_addedAt := bad; startedAt := bst; b_finishedAt := bfi;
                      cachedCover := bcc |}).
  { intros ad st -> ->. eexists. split; [reflexivity|]. split.
    - unfold needsAPIFetch. cbn [rv_title rv_author rv_year rv_description rv_coverUrl].
      rewrite Ft1, Fa1, Fy1, Fd1, Fc1. reflexivity.
    - unfold book_of_row, synced_copy, js_or. cbn - [or_null].
      rewrite Ft1, Fa1, Fy1, Tad4, Tst4, Tfi4.
      unfold or_null. rewrite Fd1, Fc1. reflexivity. }
  destruct (nonempty (or_empty bfi)) eqn:Ef.
  - assert (Es : nonempty (or_empty bst) = true) by (apply Hc2; reflexivity).
    assert (Ea : nonempty (or_empty bad) = true) by (apply Hc1; exact Es).
    rewrite Es, (repair_str_keep _ _ Es Ef Ho2), !(repair_str_keep _ _ Ea Es Ho1).
    apply Hfin; reflexivity.
  - destruct (nonempty (or_empty bst)) eqn:Es.
    + assert (Ea : nonempty (or_empty bad) = true) by (apply Hc1; reflexivity).
      rewrite (repair_str_keep _ _ Ea Es Ho1).
      apply Hfin; reflexivity.
    + apply Hfin; reflexivity.
Qed.

Lemma exported_fields (b : book) :
  book_exportable b ->
  Forall (fun f => contains_char TAB f = false /\ contains_char LF f = false) (book_fields b)
  /\ exists pre d, book_fields b = pre ++ [d] /\ pre <> [] /\ nonempty d = true
                   /\ trim_end d = d.
Proof.
  destruct b as [bid bi bt ba byr bd bc btg bad bst bfi bcc].
  intros (Hi & Ht & Ha & Hy & Hc & Hd & Htg & Had & Hst & Hfi & _).
  cbn [isbn b_title author b_year coverUrl description b_tags b_addedAt startedAt
       b_finishedAt] in *.
  destruct Hi as (i & -> & Fi). destruct Ht as (t & -> & Ft & Ftcr & Ftq).
  destruct Ha as (a & -> & Fa & Facr & Faq). destruct Hy as (y & -> & Fy).
  destruct Hc as (c & -> & Fc). destruct Hd as (d & -> & Fd & Fdcr & Fdq).
  pose proof (ts_text_facts _ Had) as (_ & Tad2 & Tad3 & _).
  pose proof (ts_text_facts _ Hst) as (_ & Tst2 & Tst3 & _).
  pose proof (ts_text_facts _ Hfi) as (_ & Tfi2 & Tfi3 & _).
  assert (Esc : forall v, field_text v -> contains_char CR v = false ->
                contains_char DQUOTE v = false -> escapeField (Some v) = v).
  { intros v (_ & _ & H1 & H2) H3 H4. apply escapeField_clean_id.
    repeat constructor; assumption. }
  unfold book_fields. cbn [isbn b_title author b_year coverUrl description b_tags b_addedAt
                           startedAt b_finishedAt].
  rewrite tags_cell_eq, !Esc by assumption.
  split.
  - assert (Htl : contains_char TAB (join "," (tags_or_empty btg)) = false
                  /\ contains_char LF (join "," (tags_or_empty btg)) = false).
    { split; apply contains_char_join; try reflexivity; eapply Forall_impl;
        try exact Htg; intros x [(_ & _ & H1 & H2) _]; assumption. }
    destruct Fi as (_ & _ & ? & ?), Ft as (_ & _ & ? & ?), Fa as (_ & _ & ? & ?),
      Fy as (_ & _ & ? & ?), Fc as (_ & _ & ? & ?), Fd as (_ & _ & ? & ?).
    repeat constructor; tauto.
  - exists [or_empty bad; or_empty bst; or_empty bfi; or_empty (Some i);
             join "," (tags_or_empty btg); t; a; or_empty (Some y); or_empty (Some c)], d.
    split; [reflexivity|]. split; [discriminate|].
    destruct Fd as (Fd1 & Fd2 & _). split; [exact Fd1|].
    exact (proj2 (trim_id_parts d Fd2)).
Qed.

Lemma books_loop_exported (L : list book) (st : loop_state) :
  Forall book_exportable L ->
  books_loop book_columns (map (join (str1 TAB)) (map book_fields L)) st
  = mkLoop (ls_books st ++ map synced_copy L) (ls_fetch st) (ls_needsSanitization st).
Proof.
  revert st. induction L as [|b L IH]; intros st HL; cbn [map books_loop].
  - rewrite app_nil_r. destruct st; reflexivity.
  - inversion_clear HL as [|? ? Hb HL'].
    destruct (parse_exported_row b Hb) as (r & Hp & Hn & Hr). rewrite Hp, Hn.
    rewrite IH by exact HL'. cbn [ls_books ls_fetch ls_needsSanitization].
    rewrite orb_false_r, <- app_assoc, Hr. reflexivity.
Qed.

(** Writing the books with [booksToTSV] and reading the text back with
    [tsvToBooks] gives, without any Google Books request and without the
    reorder flag, the books that have an ISBN, in order, each as its synced
    copy (id set to its ISBN, missing tag list made empty, cover cache
    dropped) -- provided each such book has non-empty trimmed title, author,
    year, cover URL and description, no tab or newline in any field, no
    carriage return or double quote in its text fields, non-empty trimmed
    comma-free tags, and timestamps that are set in the order addedAt,
    startedAt, finishedAt and ordered. *)
Theorem books_tsv_roundtrip (google : string -> api_result) (L : list book) :
  Forall book_exportable (filter (fun b => truthy (isbn b)) L) ->
  tsvToBooks google (booksToTSV L)
  = (map synced_copy (filter (fun b => truthy (isbn b)) L), false).
Proof.
  set (L' := filter (fun b => truthy (isbn b)) L). intros HL.
  set (hdr := join (str1 TAB) book_columns).
  assert (Henc : booksToTSV L = join (str1 LF) (hdr :: map (join (str1 TAB)) (map book_fields L')))
    by reflexivity.
  assert (Hrows : Forall (fun x => contains_char LF x = false)
                    (hdr :: map (join (str1 TAB)) (map book_fields L'))).
  { constructor; [reflexivity|]. apply Forall_map, Forall_map.
    eapply Forall_impl; [|exact HL]. intros b Hb.
    apply contains_char_join; [reflexivity|].
    eapply Forall_impl; [|exact (proj1 (exported_fields b Hb))]. intros f [_ H]. exact H. }
  assert (Htrim : trim (booksToTSV L) = booksToTSV L).
  { rewrite Henc. unfold trim.
    destruct L' as [|b0 L0] eqn:EL.
    - reflexivity.
    - assert (Hs : trim_start (join (str1 LF) (hdr :: map (join (str1 TAB))
                                  (map book_fields (b0 :: L0))))
                   = join (str1 LF) (hdr :: map (join (str1 TAB)) (map book_fields (b0 :: L0)))).
      { unfold join at 1. cbn [map String.concat].
        apply trim_start_app; reflexivity. }
      rewrite Hs. clear Hs.
      assert (HL2 : Forall book_exportable (b0 :: L0)) by exact HL.
      destruct (exists_last (l := b0 :: L0) ltac:(discriminate)) as (L1 & b & E1).
      rewrite E1 in HL2 |- *. apply Forall_app in HL2 as [_ Hb].
      inversion_clear Hb as [|? ? Hb' _].
      destruct (exported_fields b Hb') as (_ & pre & d & Hf & Hpre & Hd1 & Hd2).
      rewrite !map_app. cbn [map]. rewrite Hf.
      unfold join. rewrite app_comm_cons, concat_last by discriminate.
      rewrite concat_last by exact Hpre.
      rewrite !str_app_assoc. apply trim_end_app; assumption. }
  unfold tsvToBooks. rewrite Htrim, Henc, split_on_join; [|discriminate|exact Hrows].
  cbn [hd tl]. replace (split_on TAB hdr) with book_columns by reflexivity.
  rewrite books_loop_exported by exact HL. cbn [ls_books ls_fetch ls_needsSanitization map].
  rewrite app_nil_r. reflexivity.
Qed.

Lemma books_tsv_roundtrip_witness :
  Forall book_exportable (filter (fun b => truthy (isbn b)) [dune])
  /\ tsvToBooks (fun _ => ApiFailed) (booksToTSV [dune])
     = (map synced_copy (filter (fun b => truthy (isbn b)) [dune]), false).
Proof.
  assert (H : Forall book_exportable (filter (fun b => truthy (isbn b)) [dune])).
  { cbn. constructor; [|constructor].
    unfold book_exportable, field_text, ts_text. cbn.
    repeat first [ eexists; split; [reflexivity|] | split ];
      try reflexivity; try discriminate; repeat constructor. }
  split; [exact H | apply (books_tsv_roundtrip (fun _ => ApiFailed) [dune]); exact H].
Defined.

(** ** Sorting *)

Section StableSort.

Context {A : Type} (c : A -> A -> Z) (P : A -> Prop).



Hypothesis c_total : forall x y, (0 <? c x y)%Z = true -> (0 <? c y x)%Z = false.
Hypothesis c_trans : forall x y z, P x -> P y -> P z ->
  (0 <? c x y)%Z = false -> (0 <? c y z)%Z = false -> (0 <? c x z)%Z = false.

Let R (x y : A) : Prop := (0 <? c x y)%Z = false.



End StableSort.







Lemma keyed_books_none (sortBy : string) (l : list book) :
  keyed_books sortBy l = None <-> exists b, In b l /\ sort_value sortBy b = None.
Proof.
  induction l as [|b l IH]; simpl.
  - split; [discriminate|]. intros (? & [] & _).
  - destruct (sort_value sortBy b) eqn:Eb, (keyed_books sortBy l) eqn:El.
    + split; [discriminate|]. intros (x & [<-|Hx] & Hn); [congruence|].
      assert (Some l0 = None) by (apply IH; exists x; auto). discriminate.
    + split; [intros _|reflexivity].
      destruct (proj1 IH eq_refl) as (x & Hx & Hn). exists x; auto.
    + split; [intros _|reflexivity]. exists b; auto.
    + split; [intros _|reflexivity]. exists b; auto.
Qed.


Lemma sort_value_none (sortBy : string) (b : book) :
  sort_value sortBy b = None
  <-> (sortBy = "title" /\ b_title b = None) \/ (sortBy = "author" /\ author b = None).
Proof.
  unfold sort_value.
  destruct (String.eqb_spec sortBy "title") as [->|Ht].
  - destruct (b_title b); simpl; split; try discriminate; try tauto.
    intros [[_ H]|[H _]]; discriminate.
  - destruct (String.eqb_spec sortBy "author") as [->|Ha].
    + destruct (author b); simpl; split; try discriminate; try tauto.
      intros [[H _]|[_ H]]; discriminate.
    + split; [|intros [[H _]|[H _]]; contradiction].
      repeat match goal with |- context [if ?e then _ else _] => destruct e end;
        discriminate.
Qed.


(** [sortBooks] throws exactly when it sorts two or more books by title
    or by author and one of them has no title, or no author, respectively
    ([toLowerCase] of [undefined]); this takes [renderBooks] down. *)
Theorem sortBooks_throws (sortBy sortOrder : string) (books : list book) :
  (2 <= List.length books)%nat ->
  sortBooks sortBy sortOrder books = None
  <-> exists b, In b books /\ ((sortBy = "title" /\ b_title b = None)
                               \/ (sortBy = "author" /\ author b = None)).
Proof.
  intros Hlen. unfold sortBooks.
  replace (List.length books <? 2)%nat with false by (symmetry; apply Nat.ltb_ge; exact Hlen).
  setoid_rewrite <- sort_value_none. rewrite <- keyed_books_none.
  destruct (keyed_books sortBy books); split; congruence.
Qed.


Lemma sortBooks_throws_witness :
  (2 <= List.length [dune; cr_book])%nat /\
  (sortBooks "author" "asc" [dune; cr_book] = None
   <-> exists b, In b [dune; cr_book] /\ (("author" = "title" /\ b_title b = None)
                                          \/ ("author" = "author" /\ author b = None))).
Proof.
  split; [simpl; lia|]. apply sortBooks_throws. simpl; lia.
Defined.


(** ** Screen rows with an empty last cell *)

Lemma count_char_app (c : ascii) (x y : string) :
  count_char c (x ++ y) = (count_char c x + count_char c y)%nat.
Proof. induction x as [|a x IH]; simpl; [reflexivity|]. rewrite IH. lia. Qed.

Lemma count_char_absent (c : ascii) (x : string) :
  contains_char c x = false -> count_char c x = 0%nat.
Proof.
  induction x as [|a x IH]; simpl; [reflexivity|].
  intros H. apply orb_false_iff in H as [H1 H2]. rewrite H1. simpl. exact (IH H2).
Qed.

Lemma split_on_length (c : ascii) (s : string) :
  List.length (split_on c s) = S (count_char c s).
Proof.
  induction s as [|a s IH]; simpl; [reflexivity|].
  destruct (Ascii.eqb a c); simpl.
  - rewrite IH. reflexivity.
  - destruct (split_on c s) as [|x rest]; simpl in *; [discriminate|]. exact IH.
Qed.

Lemma count_char_join (c : ascii) (l : list string) :
  l <> [] -> Forall (fun x => contains_char c x = false) l ->
  count_char c (join (str1 c) l) = (List.length l - 1)%nat.
Proof.
  unfold join. induction l as [|x [|y l] IH]; intros Hne Hf; [congruence| |].
  - inversion_clear Hf. simpl. rewrite count_char_absent by assumption. reflexivity.
  - inversion_clear Hf as [|? ? Hx Hl].
    change (String.concat (str1 c) (x :: y :: l))
      with (x ++ str1 c ++ String.concat (str1 c) (y :: l))%string.
    rewrite !count_char_app, IH by (discriminate || exact Hl).
    rewrite count_char_absent by exact Hx. simpl. rewrite Ascii.eqb_refl. lia.
Qed.

Lemma trim_start_count (c : ascii) (s : string) :
  (count_char c (trim_start s) <= count_char c s)%nat.
Proof.
  induction s as [|a s IH]; simpl; [lia|].
  destruct (is_ws a); simpl; lia.
Qed.

Lemma trim_end_count (c : ascii) (s : string) :
  (count_char c (trim_end s) <= count_char c s)%nat.
Proof.
  induction s as [|a s IH]; simpl; [lia|].
  destruct (is_ws a && String.eqb (trim_end s) EmptyString); simpl; lia.
Qed.

Lemma trim_end_snoc_ws (y : string) (a : ascii) :
  is_ws a = true -> trim_end (y ++ str1 a) = trim_end y.
Proof.
  intros Ha. induction y as [|b y IH].
  - simpl. rewrite Ha. reflexivity.
  - cbn [append trim_end]. rewrite IH. reflexivity.
Qed.

Lemma trim_start_app_gen (x z : string) :
  trim_start (x ++ z)
  = if String.eqb (trim_start x) EmptyString then trim_start z else (trim_start x ++ z)%string.
Proof.
  induction x as [|a x IH]; simpl; [reflexivity|].
  destruct (is_ws a); [exact IH|reflexivity].
Qed.

(** Trimming a row that ends with a tab removes that tab. *)
Lemma trim_snoc_tab_count (y : string) :
  (count_char TAB (trim (y ++ str1 TAB)) <= count_char TAB y)%nat.
Proof.
  unfold trim. rewrite trim_start_app_gen.
  destruct (String.eqb (trim_start y) EmptyString).
  - simpl. lia.
  - rewrite trim_end_snoc_ws by reflexivity.
    etransitivity; [apply trim_end_count|apply trim_start_count].
Qed.

(** Claim C4 (code bug).  A screen whose overview is empty or absent -- as
    every manual entry is created, with [overview: ''] -- does not survive
    [screensToTSV] then [tsvToScreens], although none of its fields holds a
    tab or a newline: its row ends with the tab before the empty
    description cell, [tsvToScreens] trims the line, and the nine cells
    left are below the ten it requires. *)
Theorem screen_empty_overview_lost (now : string) (s : screen) :
  Forall (fun f => contains_char TAB f = false /\ contains_char LF f = false) (screen_fields s) ->
  or_empty (overview s) = EmptyString ->
  tsvToScreens now (screensToTSV [s]) = [].
Proof.
  intros Hf Ho.
  assert (Hrow : screen_row s
                 = (join (str1 TAB) (firstn 9 (screen_fields s)) ++ str1 TAB)%string).
  { unfold screen_row.
    assert (E : screen_fields s = firstn 9 (screen_fields s) ++ [or_empty (overview s)])
      by reflexivity.
    rewrite E at 1. rewrite Ho. unfold join.
    rewrite concat_last by (unfold screen_fields; discriminate). reflexivity. }
  assert (Hlf : contains_char LF (screen_row s) = false).
  { apply contains_char_join; [reflexivity|].
    eapply Forall_impl; [|exact Hf]. intros f [_ H]. exact H. }
  assert (Hcnt : count_char TAB (join (str1 TAB) (firstn 9 (screen_fields s))) = 8%nat).
  { rewrite count_char_join; [reflexivity|discriminate|].
    unfold screen_fields in Hf |- *. cbn [firstn].
    inversion_clear Hf as [|? ? H0 Hf1]. inversion_clear Hf1 as [|? ? H1 Hf2].
    inversion_clear Hf2 as [|? ? H2 Hf3]. inversion_clear Hf3 as [|? ? H3 Hf4].
    inversion_clear Hf4 as [|? ? H4 Hf5]. inversion_clear Hf5 as [|? ? H5 Hf6].
    inversion_clear Hf6 as [|? ? H6 Hf7]. inversion_clear Hf7 as [|? ? H7 Hf8].
    inversion_clear Hf8 as [|? ? H8 _].
    repeat constructor; tauto. }
  unfold tsvToScreens, screensToTSV.
  replace (screen_header ++ str1 LF ++ join (str1 LF) (map screen_row [s]))%string
    with (join (str1 LF) [screen_header; screen_row s]) by reflexivity.
  rewrite split_on_join; [|discriminate|constructor; [reflexivity|constructor; [exact Hlf|constructor]]].
  cbn [List.length Nat.ltb Nat.leb tl parse_screen_lines].
  unfold parse_screen_line.
  assert (Hlen : (List.length (split_on TAB (trim (screen_row s))) <? 10)%nat = true).
  { apply Nat.ltb_lt. rewrite split_on_length, Hrow.
    pose proof (trim_snoc_tab_count (join (str1 TAB) (firstn 9 (screen_fields s)))).
    lia. }
  rewrite Hlen. destruct (negb (nonempty (trim (screen_row s)))); reflexivity.
Qed.

Lemma screen_empty_overview_lost_witness :
  Forall (fun f => contains_char TAB f = false /\ contains_char LF f = false)
         (screen_fields manual_screen)
  /\ or_empty (overview manual_screen) = EmptyString
  /\ tsvToScreens "1700000000001" (screensToTSV [manual_screen]) = [].
Proof.
  assert (H1 : Forall (fun f => contains_char TAB f = false /\ contains_char LF f = false)
                      (screen_fields manual_screen)) by (repeat constructor).
  assert (H2 : or_empty (overview manual_screen) = EmptyString) by reflexivity.
  split; [exact H1|]. split; [exact H2|].
  exact (screen_empty_overview_lost "1700000000001" manual_screen H1 H2).
Defined.
